(** * Settings routes, locale tests, the markdown annotation helper and
      the navigation links

    A shallow embedding of these pieces of the code base:

    - the Fastify plugin [settingRoutes] (eleven [PUT] endpoints that update
      the session user's document through Prisma),
    - the locale test suite (which files and enum entries it checks) and
      the structure checks on intro.json,
    - the [annotateCode] / [stringifyMd] helpers of the translation
      formatter,
    - the [NavLinks] component.

    JavaScript objects are finite maps or association lists of [Value]s,
    [async] handlers are computations in a state-and-exception monad over a
    [World] that holds the user collection, the outcome scheduled for the
    next ORM calls, the trace of ORM calls, the server log, the reply's
    status code and the clock.  What lies outside the code base is a
    parameter: the string methods of the JavaScript engine, the imported
    validators, the URL parser, the date formatter, the handlers of the
    markdown libraries. *)

From Stdlib Require Import ZArith Ascii String List Bool Lia.
From stdpp Require Import base option list strings gmap fin_maps.

Open Scope string_scope.
Open Scope list_scope.

(** ** JavaScript values and strings *)

#[warnings="-register-all"]
Inductive Value : Type :=
  | VUndefined
  | VNull
  | VBool (b : bool)
  | VNum (n : Z)
  | VStr (s : string)
  | VObj (fields : list (string * Value))
  | VArr (items : list Value).

(** An object literal, in the order its properties are written. *)
Abbreviation Payload := (list (string * Value)).

(** A stored document: field name to value. *)
Abbreviation Doc := (gmap string Value).

(** JavaScript truthiness ([if (x)], [!x], [x ? a : b], [x || y]). *)
Definition truthy (v : Value) : bool :=
  match v with
  | VUndefined | VNull => false
  | VBool b => b
  | VNum n => negb (n =? 0)%Z
  | VStr s => negb (String.eqb s "")
  | VObj _ | VArr _ => true
  end.

Fixpoint get_field (k : string) (o : Payload) : option Value :=
  match o with
  | [] => None
  | (k', v) :: rest => if String.eqb k k' then Some v else get_field k rest
  end.

(** [String.prototype.toLowerCase] restricted to ASCII text, where it maps
    [A]-[Z] to [a]-[z] and nothing else.  The locale suite applies it to
    the keys of the language enums; the settings handlers, whose strings
    are request data in any script, take the method as a parameter (Section
    [SettingRoutes]) and meet this version only in concrete runs on ASCII
    input. *)
Definition lower_ascii (c : ascii) : ascii :=
  let n := nat_of_ascii c in
  if (65 <=? n)%nat && (n <=? 90)%nat then ascii_of_nat (n + 32) else c.

Fixpoint toLowerCase (s : string) : string :=
  match s with
  | EmptyString => EmptyString
  | String c rest => String (lower_ascii c) (toLowerCase rest)
  end.

(** [String.prototype.trim] restricted to ASCII text: it strips tab, line
    feed, vertical tab, form feed, carriage return and space.  Like
    [toLowerCase] it stands in for the engine's method in concrete runs on
    ASCII input only. *)
Definition is_space (c : ascii) : bool :=
  let n := nat_of_ascii c in
  ((9 <=? n)%nat && (n <=? 13)%nat) || (n =? 32)%nat.

Fixpoint trimStart (s : string) : string :=
  match s with
  | EmptyString => EmptyString
  | String c rest => if is_space c then trimStart rest else s
  end.

Fixpoint trimEnd (s : string) : string :=
  match s with
  | EmptyString => EmptyString
  | String c rest =>
      let t := trimEnd rest in
      if is_space c && String.eqb t "" then EmptyString else String c t
  end.

Definition trim (s : string) : string := trimEnd (trimStart s).

(** [Array.prototype.includes] on an array of strings. *)
Definition includes (l : list string) (x : string) : bool :=
  existsb (String.eqb x) l.

(** ** Errors, the world and the handler monad *)

(** A thrown JavaScript error. [err_validation] is the truthiness of the
    [validation] property that Fastify sets on schema validation errors. *)
Record JsError : Type := mkError {
  err_message : string;
  err_validation : bool
}.

Definition TypeError (msg : string) : JsError := mkError msg false.
Definition ValidationError (msg : string) : JsError := mkError msg true.

(** An error that a Prisma call rejects with: it has a message and, unlike
    the errors of Fastify's schema validation, no [validation] property. *)
Definition PrismaError (msg : string) : JsError := mkError msg false.

(** Prisma's rejection when the [where] clause selects no record. *)
Definition RecordNotFound : JsError := PrismaError "No User found".

Inductive OrmCall : Type :=
  | FindUniqueOrThrow
  | FindFirstOrThrow
  | Count
  | Update.

(** One entry of the ORM trace: the call and the error it rejected with. *)
Abbreviation OrmEvent := (OrmCall * option JsError)%type.

Record World : Type := mkWorld {
  users : gmap string (gmap string Value);
  (** what the data store does on the coming ORM calls, one entry a call:
      [Some msg] makes the call reject with an error of that message; an
      exhausted list means no further fault *)
  faults : list (option string);
  ormCalls : list OrmEvent;
  (** the server log: what was logged at level [error], and at level [info] *)
  errorLog : list JsError;
  infoLog : list JsError;
  statusCode : nat;
  now : Z
}.

Definition set_users (f : gmap string (gmap string Value) -> gmap string (gmap string Value))
    (w : World) : World :=
  mkWorld (f (users w)) (faults w) (ormCalls w) (errorLog w) (infoLog w)
          (statusCode w) (now w).

Definition set_faults (fs : list (option string)) (w : World) : World :=
  mkWorld (users w) fs (ormCalls w) (errorLog w) (infoLog w) (statusCode w) (now w).

Definition record_call (ev : OrmEvent) (w : World) : World :=
  mkWorld (users w) (faults w) (ormCalls w ++ [ev]) (errorLog w) (infoLog w)
          (statusCode w) (now w).

Definition append_log (e : JsError) (w : World) : World :=
  mkWorld (users w) (faults w) (ormCalls w) (errorLog w ++ [e]) (infoLog w)
          (statusCode w) (now w).

Definition append_info (e : JsError) (w : World) : World :=
  mkWorld (users w) (faults w) (ormCalls w) (errorLog w) (infoLog w ++ [e])
          (statusCode w) (now w).

Definition set_status (n : nat) (w : World) : World :=
  mkWorld (users w) (faults w) (ormCalls w) (errorLog w) (infoLog w) n (now w).

(** [let fiveMinuteLimit: Date;] at the top of the module: the variable is
    declared without a value and no statement of the module assigns it, so
    it is [undefined] ([None]) whenever a handler reads it. *)
Definition fiveMinuteLimit : option Z := None.

(** A computation either throws or returns, and threads the world. *)
Definition M (A : Type) : Type := World -> (JsError + A) * World.

Definition ret {A} (a : A) : M A := fun w => (inr a, w).

Definition throw {A} (e : JsError) : M A := fun w => (inl e, w).

Definition bind {A B} (m : M A) (k : A -> M B) : M B :=
  fun w =>
    match m w with
    | (inl e, w') => (inl e, w')
    | (inr a, w') => k a w'
    end.

(** [try { body } catch (err) { handler }]: the effects of [body] up to the
    throw are kept. *)
Definition try_catch {A} (body : M A) (handler : JsError -> M A) : M A :=
  fun w =>
    match body w with
    | (inl e, w') => handler e w'
    | (inr a, w') => (inr a, w')
    end.

Declare Scope js_scope.
Delimit Scope js_scope with js.
Notation "x <- m ;; k" := (bind m (fun x => k))
  (at level 100, m at next level, right associativity) : js_scope.
Notation "m ;;; k" := (bind m (fun _ => k))
  (at level 100, right associativity) : js_scope.
Open Scope js_scope.

Definition get_world : M World := fun w => (inr w, w).

(** [fastify.log.error(err)] *)
Definition log_error (e : JsError) : M unit := fun w => (inr tt, append_log e w).

(** [reply.log.info(..)] of Fastify's own error handler *)
Definition log_info (e : JsError) : M unit := fun w => (inr tt, append_info e w).

(** [reply.code(n)] *)
Definition reply_code (n : nat) : M unit := fun w => (inr tt, set_status n w).

(** ** The Prisma client on the user collection *)

(** Every ORM call first consumes the fault scheduled for it. *)
Definition next_fault (w : World) : option string * World :=
  match faults w with
  | [] => (None, w)
  | f :: fs => (f, set_faults fs w)
  end.

(** [data] of an [update]: a property whose value is [undefined] is left
    alone, every other property overwrites the stored field. *)
Definition apply_data (data : Payload) (u : Doc) : Doc :=
  fold_left
    (fun acc kv =>
       match kv.2 with
       | VUndefined => acc
       | v => <[kv.1 := v]> acc
       end)
    data u.

(** [prisma.user.update({ where: { id }, data })] *)
Definition prisma_user_update (id : string) (data : Payload) : M unit :=
  fun w =>
    let (f, w1) := next_fault w in
    match f with
    | Some msg => (inl (PrismaError msg), record_call (Update, Some (PrismaError msg)) w1)
    | None =>
        match users w1 !! id with
        | None => (inl RecordNotFound, record_call (Update, Some RecordNotFound) w1)
        | Some u =>
            (inr tt,
             record_call (Update, None)
               (set_users (fun us => <[id := apply_data data u]> us) w1))
        end
    end.

(** A read of one record by id; [select] keeps the listed fields ([None]
    keeps them all). *)
Definition select_fields (select : option (list string)) (u : Doc) : Doc :=
  match select with
  | None => u
  | Some ks => filter (fun kv => includes ks kv.1 = true) u
  end.

Definition find_or_throw (op : OrmCall) (id : string)
    (select : option (list string)) : M Doc :=
  fun w =>
    let (f, w1) := next_fault w in
    match f with
    | Some msg => (inl (PrismaError msg), record_call (op, Some (PrismaError msg)) w1)
    | None =>
        match users w1 !! id with
        | None => (inl RecordNotFound, record_call (op, Some RecordNotFound) w1)
        | Some u => (inr (select_fields select u), record_call (op, None) w1)
        end
    end.

(** [prisma.user.findUniqueOrThrow({ where: { id }, select })] *)
Definition prisma_user_findUniqueOrThrow (id : string) (select : list string) : M Doc :=
  find_or_throw FindUniqueOrThrow id (Some select).

(** [prisma.user.findFirstOrThrow({ where: { id } })] *)
Definition prisma_user_findFirstOrThrow (id : string) : M Doc :=
  find_or_throw FindFirstOrThrow id None.

Definition has_username (name : string) (u : Doc) : bool :=
  match u !! "username" with
  | Some (VStr s) => String.eqb s name
  | _ => false
  end.

(** How many stored users carry the given username. *)
Definition users_named (name : string) (us : gmap string (gmap string Value)) : nat :=
  length (filter (fun kv => has_username name kv.2 = true) (map_to_list us)).

(** [prisma.user.count({ where: { username } })] *)
Definition prisma_user_count (name : string) : M Z :=
  fun w =>
    let (f, w1) := next_fault w in
    match f with
    | Some msg => (inl (PrismaError msg), record_call (Count, Some (PrismaError msg)) w1)
    | None =>
        (inr (Z.of_nat (users_named name (users w1))), record_call (Count, None) w1)
    end.

(** Calling a string method on a property: a [TypeError] unless the
    property holds a string. *)
Definition string_of (v : option Value) : M string :=
  match v with
  | Some (VStr s) => ret s
  | _ => throw (TypeError "Cannot read properties of undefined")
  end.

(** ** Requests, replies and routes *)

Record Request (B : Type) : Type := mkRequest {
  session_user_id : string;
  body : B;
  (** set by Fastify when the route has [attachValidation: true] and the
      body failed the schema *)
  validationError : option JsError
}.

Arguments mkRequest {B} _ _ _.
Arguments session_user_id {B} _.
Arguments body {B} _.
Arguments validationError {B} _.

(** The request bodies, with the static types of the route schemas.  A body
    that fails its schema is still taken to have these types: what fails is
    a format or a length. *)
Module schemas.

Record ProfileUI : Type := {
  isLocked : bool;
  showAbout : bool;
  showCerts : bool;
  showDonation : bool;
  showHeatMap : bool;
  showLocation : bool;
  showName : bool;
  showPoints : bool;
  showPortfolio : bool;
  showTimeLine : bool
}.

Record updateMyProfileUI : Type := { profileUI : ProfileUI }.

Record updateMyEmail : Type := { email : string }.

Record updateMyTheme : Type := { theme : string }.

Record updateMySocials : Type := {
  website : string;
  twitter : string;
  githubProfile : string;
  linkedin : string
}.

Record updateMyUsername : Type := { username : string }.

Record updateMyAbout : Type := {
  about : string;
  name : string;
  location : string;
  picture : option string
}.

Record updateMyKeyboardShortcuts : Type := { keyboardShortcuts : bool }.

Record updateMyQuincyEmail : Type := { sendQuincyEmail : bool }.

Record updateMyHonesty : Type := { isHonest : bool }.

Record updateMyPrivacyTerms : Type := { quincyEmails : bool }.

Record PortfolioItem : Type := {
  id : option string;
  title : option string;
  url : option string;
  description : option string;
  image : option string
}.

Record updateMyPortfolio : Type := { portfolio : list PortfolioItem }.

End schemas.

(** What the client gets: a payload sent by this plugin, with the reply's
    status code; or the reply that Fastify's own error handler makes of an
    error, with its status code (the body of that reply is Fastify's
    rendering of the error, not a payload of the plugin). *)
Inductive Outcome : Type :=
  | Sent (status : nat) (payload : Payload)
  | DefaultErrorHandler (status : nat) (e : JsError).


(** [reply.send(payload)] *)
Definition reply_send (payload : Payload) : M Outcome :=
  fun w => (inr (Sent (statusCode w) payload), w).

(** [fastify.errorHandler(error, request, reply)].  The plugin sets no error
    handler, so this is Fastify's default one: a reply that is still at
    status 200 gets the status code of the error (400 on a schema validation
    error; the errors of the ORM and of the engine carry none, which makes
    it 500); the error is logged, at level [info] below 500 and at level
    [error] from 500 on; and the error is sent. *)
Definition fastify_errorHandler (e : JsError) : M Outcome :=
  w <- get_world ;;
  (if (statusCode w =? 200)%nat
   then reply_code (if err_validation e then 400 else 500)
   else ret tt) ;;;
  w1 <- get_world ;;
  (if (statusCode w1 <? 500)%nat then log_info e else log_error e) ;;;
  w2 <- get_world ;;
  ret (DefaultErrorHandler (statusCode w2) e).

(** ** Response schemas

    The TypeBox schemas that a route lists under [response], by status
    code, and what Fastify's serialiser (fast-json-stringify, compiled from
    the schema of the reply's status code) makes of a payload. *)

#[warnings="-register-all"]
Inductive TSchema : Type :=
  | TString
  | TLiteral (const : string)
  | TUnion (anyOf : list TSchema)
  | TObject (properties : list (string * TSchema)).

(** Does the value match the schema?  The serialiser asks this to pick
    the alternative of a union. *)
Fixpoint validates (s : TSchema) (v : Value) : bool :=
  match s with
  | TString => match v with VStr _ => true | _ => false end
  | TLiteral c => match v with VStr x => String.eqb x c | _ => false end
  | TUnion alts => existsb (fun a => validates a v) alts
  | TObject props =>
      match v with
      | VObj fields =>
          forallb
            (fun p =>
               match get_field (fst p) fields with
               | Some x => validates (snd p) x
               | None => false
               end)
            props
      | _ => false
      end
  end.

(** The serialiser: a literal is written as the schema's constant whatever
    the value is; a string is written as it is; a union is written by its
    first alternative that the value matches; an object is written property
    by property in the order of the schema, and properties that the schema
    does not list are dropped.  [None] is a serialiser that throws: a
    property of the schema that the payload lacks (TypeBox makes them all
    required), or a value that matches no alternative of a union.  (Values
    other than strings under [TString], which the library would convert
    with [toString], occur in no payload of the plugin and get no
    result.) *)
Fixpoint serialize (s : TSchema) (v : Value) : option Value :=
  match s with
  | TString => match v with VStr x => Some (VStr x) | _ => None end
  | TLiteral c => Some (VStr c)
  | TUnion alts =>
      (fix first_match (l : list TSchema) : option Value :=
         match l with
         | [] => None
         | a :: rest => if validates a v then serialize a v else first_match rest
         end) alts
  | TObject props =>
      match v with
      | VObj fields =>
          option_map VObj
            ((fix each (l : list (string * TSchema)) : option Payload :=
                match l with
                | [] => Some []
                | p :: rest =>
                    match get_field (fst p) fields with
                    | None | Some VUndefined => None
                    | Some x =>
                        match serialize (snd p) x, each rest with
                        | Some y, Some ys => Some ((fst p, y) :: ys)
                        | _, _ => None
                        end
                    end
                end) props)
      | _ => None
      end
  end.

Fixpoint schema_for (status : nat) (response : list (nat * TSchema)) : option TSchema :=
  match response with
  | [] => None
  | (code, s) :: rest => if (status =? code)%nat then Some s else schema_for status rest
  end.

(** A status code without a schema gets the plain JSON of the payload. *)
Definition serialize_reply (response : list (nat * TSchema)) (status : nat)
    (payload : Payload) : option Payload :=
  match schema_for status response with
  | None => Some payload
  | Some s =>
      match serialize s (VObj payload) with
      | Some (VObj p) => Some p
      | _ => None
      end
  end.

Definition SerializationError : JsError :=
  TypeError "The value does not match schema definition.".

Record Route : Type := mkRoute {
  url : string;
  Body : Type;
  attachValidation : bool;
  errorHandler : option (JsError -> M Outcome);
  response : list (nat * TSchema);
  handler : Request Body -> M Payload
}.

(** Modelled from the spec: the route schemas [schemas.updateMyProfileUI],
    [schemas.updateMyTheme] and so on are imported from [../schemas], which
    is not among the sources at hand.  The spec has an update endpoint
    return its flash message ([message], [type]) to the UI, so the
    [response] part of an imported schema is taken to let the payloads of
    the handler through as they are: no response schema. *)
Definition schemas_response : list (nat * TSchema) := [].

(** The [response] that [/update-my-email] writes out in its route
    options. *)
Definition update_my_email_response : list (nat * TSchema) :=
  [ (200%nat, TObject [("message", TLiteral "flash.email-valid");
                       ("type", TLiteral "success")]);
    (204%nat, TObject [("message", TString); ("type", TLiteral "info")]);
    (400%nat, TObject [("message", TString);
                       ("type", TUnion [TLiteral "danger"; TLiteral "info"])]);
    (500%nat, TObject [("message", TLiteral "flash.wrong-updating");
                       ("type", TLiteral "danger")]) ].

(** The result of [isValidUsername]. *)
Record Validated : Type := mkValidated {
  valid : bool;
  error : string
}.

(** [isPast] of date-fns: is the date before [Date.now()]?  An [undefined]
    argument converts to an invalid date, whose time value compares false. *)
Definition isPast (d : option Z) (clock : Z) : bool :=
  match d with
  | Some t => (t <? clock)%Z
  | None => false
  end.

Definition wrong_updating : Payload :=
  [("message", VStr "flash.wrong-updating"); ("type", VStr "danger")].

(** The [catch (err)] clause shared by the handlers. *)
Definition report_error (err : JsError) : M Payload :=
  log_error err ;;;
  reply_code 500 ;;;
  ret wrong_updating.

(** [x ? x : ''] *)
Definition or_empty (x : option string) : string :=
  match x with
  | Some s => if truthy (VStr s) then s else ""
  | None => ""
  end.

Section SettingRoutes.

(** [String.prototype.toLowerCase] and [String.prototype.trim] of the
    JavaScript engine, which work on Unicode text. *)
Variable toLowerCase : string -> string.
Variable trim : string -> string.

(** Imported from outside the plugin. *)
Variable isProfane : string -> bool.
Variable isValidUsername : string -> Validated.
Variable blocklistedUsernames : list string.

(** [new URL(s).protocol]; [None] when the constructor throws. *)
Variable urlProtocol : string -> option string.

(** [new Intl.DateTimeFormat('en-US', { dateStyle: 'full', timeStyle:
    'long' }).format(d)], read at the given clock. *)
Variable formatDateTime : option Z -> Z -> string.

(** [x?.trim()]: [undefined] when [x] is [undefined] or [null]. *)
Definition optional_trim (v : option Value) : M (option string) :=
  match v with
  | None | Some VUndefined | Some VNull => ret None
  | Some (VStr s) => ret (Some (trim s))
  | Some _ => throw (TypeError "trim is not a function")
  end.

Definition isPictureWithProtocol (picture : option string) : bool :=
  match picture with
  | None => false
  | Some p =>
      if negb (truthy (VStr p)) then false
      else
        match urlProtocol p with
        | Some protocol =>
            String.eqb protocol "http:" || String.eqb protocol "https:"
        | None => false
        end
  end.

Definition updateErrorHandler (error : JsError) : M Outcome :=
  if err_validation error then
    reply_code 400 ;;;
    reply_send [("message", VStr "flash.wrong-updating"); ("type", VStr "danger")]
  else fastify_errorHandler error.

Definition update_my_profileui (req : Request schemas.updateMyProfileUI) : M Payload :=
  let p := schemas.profileUI (body req) in
  try_catch
    (prisma_user_update (session_user_id req)
       [("profileUI",
         VObj [("isLocked", VBool (schemas.isLocked p));
               ("showAbout", VBool (schemas.showAbout p));
               ("showCerts", VBool (schemas.showCerts p));
               ("showDonation", VBool (schemas.showDonation p));
               ("showHeatMap", VBool (schemas.showHeatMap p));
               ("showLocation", VBool (schemas.showLocation p));
               ("showName", VBool (schemas.showName p));
               ("showPoints", VBool (schemas.showPoints p));
               ("showPortfolio", VBool (schemas.showPortfolio p));
               ("showTimeLine", VBool (schemas.showTimeLine p))])] ;;;
     ret [("message", VStr "flash.privacy-updated"); ("type", VStr "success")])
    report_error.

Definition same_email_message (newEmail : string) : string :=
  newEmail +:+ " is already associated with this account.
You can update a new email address instead.".

Definition already_sent_message (newEmail formattedLimitedTime : string) : string :=
  "
        We have already sent an email confirmation request to " +:+ newEmail +:+ ".
        " +:+ formattedLimitedTime.

Definition update_my_email (req : Request schemas.updateMyEmail) : M Payload :=
  match validationError req with
  | Some _ =>
      reply_code 400 ;;;
      ret [("message", VStr "Email format is invalid"); ("type", VStr "danger")]
  | None =>
      userEmail <- prisma_user_findUniqueOrThrow (session_user_id req) ["email"] ;;
      let newEmail := toLowerCase (schemas.email (body req)) in
      stored <- string_of (userEmail !! "email") ;;
      let currentEmailFormated := toLowerCase stored in
      let isSameEmail := String.eqb newEmail currentEmailFormated in
      if isSameEmail then
        reply_code 400 ;;;
        ret [("type", VStr "info"); ("message", VStr (same_email_message newEmail))]
      else
        w <- get_world ;;
        if negb (isPast fiveMinuteLimit (now w)) then
          let formattedLimitedTime := formatDateTime fiveMinuteLimit (now w) in
          ret [("type", VStr "info");
               ("message", VStr (already_sent_message newEmail formattedLimitedTime))]
        else
          try_catch
            (prisma_user_update (session_user_id req) [("email", VStr newEmail)] ;;;
             ret [("message", VStr "flash.email-valid"); ("type", VStr "success")])
            report_error
  end.

Definition update_my_theme (req : Request schemas.updateMyTheme) : M Payload :=
  try_catch
    (prisma_user_update (session_user_id req)
       [("theme", VStr (schemas.theme (body req)))] ;;;
     ret [("message", VStr "flash.updated-themes"); ("type", VStr "success")])
    report_error.

Definition update_my_socials (req : Request schemas.updateMySocials) : M Payload :=
  try_catch
    (prisma_user_update (session_user_id req)
       [("website", VStr (schemas.website (body req)));
        ("twitter", VStr (schemas.twitter (body req)));
        ("githubProfile", VStr (schemas.githubProfile (body req)));
        ("linkedin", VStr (schemas.linkedin (body req)))] ;;;
     ret [("message", VStr "flash.updated-socials"); ("type", VStr "success")])
    report_error.

Definition invalid_username_message (newUsername : string) (validation : Validated) : string :=
  "Username " +:+ newUsername +:+ " " +:+ error validation.

Definition update_my_username (req : Request schemas.updateMyUsername) : M Payload :=
  try_catch
    (user <- prisma_user_findFirstOrThrow (session_user_id req) ;;
     let newUsernameDisplay := trim (schemas.username (body req)) in
     oldUsernameDisplay <- optional_trim (user !! "usernameDisplay") ;;
     let newUsername := toLowerCase newUsernameDisplay in
     stored <- string_of (user !! "username") ;;
     let oldUsername := toLowerCase stored in
     let usernameUnchanged :=
       String.eqb newUsername oldUsername &&
       match oldUsernameDisplay with
       | Some o => String.eqb newUsernameDisplay o
       | None => false
       end in
     if usernameUnchanged then
       reply_code 400 ;;;
       ret [("message", VStr "flash.username-used"); ("type", VStr "info")]
     else
       match validationError req with
       | Some validationErr =>
           reply_code 400 ;;;
           ret [("message", VStr (err_message validationErr)); ("type", VStr "info")]
       | None =>
           let validation := isValidUsername newUsername in
           if negb (valid validation) then
             reply_code 400 ;;;
             ret [("message", VStr (invalid_username_message newUsername validation));
                  ("type", VStr "info")]
           else
             let isUserNameProfane := isProfane newUsername in
             let onBlocklist := includes blocklistedUsernames newUsername in
             usernameTaken <-
               (if String.eqb newUsername oldUsername then ret (VBool false)
                else n <- prisma_user_count newUsername ;; ret (VNum n)) ;;
             if truthy usernameTaken || isUserNameProfane || onBlocklist then
               reply_code 400 ;;;
               ret [("message", VStr "flash.username-taken"); ("type", VStr "info")]
             else
               prisma_user_update (session_user_id req)
                 [("username", VStr newUsername);
                  ("usernameDisplay", VStr newUsernameDisplay)] ;;;
               ret [("message", VStr "flash.username-updated");
                    ("type", VStr "success");
                    ("username", VStr newUsernameDisplay)]
       end)
    report_error.

(** [{ picture: req.body.picture }] *)
Definition picture_value (picture : option string) : Value :=
  match picture with
  | Some p => VStr p
  | None => VUndefined
  end.

Definition update_my_about (req : Request schemas.updateMyAbout) : M Payload :=
  let hasProtocol := isPictureWithProtocol (schemas.picture (body req)) in
  try_catch
    (prisma_user_update (session_user_id req)
       ([("about", VStr (schemas.about (body req)));
         ("name", VStr (schemas.name (body req)));
         ("location", VStr (schemas.location (body req)))]
        ++ (if hasProtocol
            then [("picture", picture_value (schemas.picture (body req)))]
            else [])) ;;;
     ret [("message", VStr "flash.updated-about-me"); ("type", VStr "success")])
    report_error.

Definition update_my_keyboard_shortcuts
    (req : Request schemas.updateMyKeyboardShortcuts) : M Payload :=
  try_catch
    (prisma_user_update (session_user_id req)
       [("keyboardShortcuts", VBool (schemas.keyboardShortcuts (body req)))] ;;;
     ret [("message", VStr "flash.keyboard-shortcut-updated"); ("type", VStr "success")])
    report_error.

Definition update_my_quincy_email (req : Request schemas.updateMyQuincyEmail) : M Payload :=
  try_catch
    (prisma_user_update (session_user_id req)
       [("sendQuincyEmail", VBool (schemas.sendQuincyEmail (body req)))] ;;;
     ret [("message", VStr "flash.subscribe-to-quincy-updated"); ("type", VStr "success")])
    report_error.

Definition update_my_honesty (req : Request schemas.updateMyHonesty) : M Payload :=
  try_catch
    (prisma_user_update (session_user_id req)
       [("isHonest", VBool (schemas.isHonest (body req)))] ;;;
     ret [("message", VStr "buttons.accepted-honesty"); ("type", VStr "success")])
    report_error.

Definition update_privacy_terms (req : Request schemas.updateMyPrivacyTerms) : M Payload :=
  try_catch
    (prisma_user_update (session_user_id req)
       [("acceptedPrivacyTerms", VBool true);
        ("sendQuincyEmail", VBool (schemas.quincyEmails (body req)))] ;;;
     ret [("message", VStr "flash.privacy-updated"); ("type", VStr "success")])
    report_error.

Definition portfolio_item (item : schemas.PortfolioItem) : Value :=
  VObj [("id", VStr (or_empty (schemas.id item)));
        ("title", VStr (or_empty (schemas.title item)));
        ("url", VStr (or_empty (schemas.url item)));
        ("description", VStr (or_empty (schemas.description item)));
        ("image", VStr (or_empty (schemas.image item)))].

Definition update_my_portfolio (req : Request schemas.updateMyPortfolio) : M Payload :=
  try_catch
    (let portfolio := map portfolio_item (schemas.portfolio (body req)) in
     prisma_user_update (session_user_id req) [("portfolio", VArr portfolio)] ;;;
     ret [("message", VStr "flash.portfolio-item-updated"); ("type", VStr "success")])
    report_error.

(** The [fastify.put] registrations. *)
Definition put_update_my_profileui : Route :=
  mkRoute "/update-my-profileui" _ false (Some updateErrorHandler) schemas_response
    update_my_profileui.

Definition put_update_my_email : Route :=
  mkRoute "/update-my-email" _ true None update_my_email_response update_my_email.

Definition put_update_my_theme : Route :=
  mkRoute "/update-my-theme" _ false (Some updateErrorHandler) schemas_response
    update_my_theme.

Definition put_update_my_socials : Route :=
  mkRoute "/update-my-socials" _ false (Some updateErrorHandler) schemas_response
    update_my_socials.

Definition put_update_my_username : Route :=
  mkRoute "/update-my-username" _ true None schemas_response update_my_username.

Definition put_update_my_about : Route :=
  mkRoute "/update-my-about" _ false None schemas_response update_my_about.

Definition put_update_my_keyboard_shortcuts : Route :=
  mkRoute "/update-my-keyboard-shortcuts" _ false (Some updateErrorHandler)
    schemas_response update_my_keyboard_shortcuts.

Definition put_update_my_quincy_email : Route :=
  mkRoute "/update-my-quincy-email" _ false (Some updateErrorHandler)
    schemas_response update_my_quincy_email.

Definition put_update_my_honesty : Route :=
  mkRoute "/update-my-honesty" _ false (Some updateErrorHandler) schemas_response
    update_my_honesty.

Definition put_update_privacy_terms : Route :=
  mkRoute "/update-privacy-terms" _ false (Some updateErrorHandler) schemas_response
    update_privacy_terms.

Definition put_update_my_portfolio : Route :=
  mkRoute "/update-my-portfolio" _ false (Some updateErrorHandler) schemas_response
    update_my_portfolio.

(** The routes in the order the plugin registers them. *)
Definition settingRoutes : list Route :=
  [ put_update_my_profileui;
    put_update_my_email;
    put_update_my_theme;
    put_update_my_socials;
    put_update_my_username;
    put_update_my_about;
    put_update_my_keyboard_shortcuts;
    put_update_my_quincy_email;
    put_update_my_honesty;
    put_update_privacy_terms;
    put_update_my_portfolio ].

End SettingRoutes.

(** ** Fastify's handling of one request on a route

    The request has passed the [onRequest] hooks, so the session user is
    known.  [invalid] is the message of the schema validation failure, if
    the body failed the route's schema. *)

(** A payload on its way out goes through the serialiser of the route's
    response schema for the reply's status code; a serialiser that throws
    makes Fastify handle the error in place of the payload. *)
Definition serialized (r : Route) (res : Outcome * World) : Outcome * World :=
  match res with
  | (Sent status payload, w) =>
      match serialize_reply (response r) status payload with
      | Some p => (Sent status p, w)
      | None =>
          match fastify_errorHandler SerializationError w with
          | (inr o, w') => (o, w')
          | (inl e, w') => (DefaultErrorHandler 500 e, w')
          end
      end
  | (DefaultErrorHandler status e, w) => (DefaultErrorHandler status e, w)
  end.

Definition run_error_handler (r : Route) (e : JsError) (w : World) : Outcome * World :=
  match
    match errorHandler r with
    | Some h => h e w
    | None => fastify_errorHandler e w
    end
  with
  | (inr o, w') => serialized r (o, w')
  | (inl e', w') => (DefaultErrorHandler 500 e', w')
  end.

Definition run_handler (r : Route) (req : Request (Body r)) (w : World) : Outcome * World :=
  match handler r req w with
  | (inr payload, w') => serialized r (Sent (statusCode w') payload, w')
  | (inl e, w') => run_error_handler r e w'
  end.

Definition dispatch (r : Route) (userId : string) (b : Body r)
    (invalid : option string) (w : World) : Outcome * World :=
  let w0 := set_status 200 w in
  match invalid with
  | None => run_handler r (mkRequest userId b None) w0
  | Some msg =>
      if attachValidation r
      then run_handler r (mkRequest userId b (Some (ValidationError msg))) w0
      else run_error_handler r (ValidationError msg) w0
  end.

(** The ORM calls made while [m] ran from [w], and the payload fields the
    flash messages use. *)
Definition new_calls (w w' : World) : list OrmEvent :=
  drop (length (ormCalls w)) (ormCalls w').

Definition calls_during {A} (m : M A) (w : World) : list OrmCall :=
  map fst (new_calls w (m w).2).

(** A trace with at most one [update], which then comes last. *)
Definition update_only_last (calls : list OrmCall) : Prop :=
  exists before,
    ~ In Update before /\ (calls = before \/ calls = before ++ [Update]).

(** A flash message: a string [message] and a [type] among the three the
    client knows. *)
Definition flash_shaped (payload : Payload) : Prop :=
  exists m t,
    get_field "message" payload = Some (VStr m) /\
    get_field "type" payload = Some (VStr t) /\
    In t ["success"; "danger"; "info"].

Definition message_of (payload : Payload) : option string :=
  match get_field "message" payload with
  | Some (VStr s) => Some s
  | _ => None
  end.

(** The translation keys that occur as literals in the plugin. *)
Definition flash_keys : list string :=
  [ "flash.wrong-updating";
    "flash.privacy-updated";
    "flash.email-valid";
    "flash.updated-themes";
    "flash.updated-socials";
    "flash.username-used";
    "flash.username-taken";
    "flash.username-updated";
    "flash.updated-about-me";
    "flash.keyboard-shortcut-updated";
    "flash.subscribe-to-quincy-updated";
    "buttons.accepted-honesty";
    "flash.portfolio-item-updated" ].

(** The object written under [profileUI] by [/update-my-profileui]. *)
Definition profileUI_value (p : schemas.ProfileUI) : Value :=
  VObj [("isLocked", VBool (schemas.isLocked p));
        ("showAbout", VBool (schemas.showAbout p));
        ("showCerts", VBool (schemas.showCerts p));
        ("showDonation", VBool (schemas.showDonation p));
        ("showHeatMap", VBool (schemas.showHeatMap p));
        ("showLocation", VBool (schemas.showLocation p));
        ("showName", VBool (schemas.showName p));
        ("showPoints", VBool (schemas.showPoints p));
        ("showPortfolio", VBool (schemas.showPortfolio p));
        ("showTimeLine", VBool (schemas.showTimeLine p))].

(** No ORM call still to come is scheduled to fail. *)
Definition no_faults (w : World) : Prop := Forall (fun f => f = None) (faults w).

(** ** The locale test suite *)

Module LocaleTests.

(** A jest test: its titles from the outermost [describe] inwards, and
    its body, which reads the file system (the set of paths that exist)
    and yields the paths it probed and whether its expectation held. *)
Record TestCase : Type := mkTest {
  test_title : list string;
  test_body : gset string -> list string * bool
}.

Definition test (title : string) (body : gset string -> list string * bool)
    : list TestCase :=
  [mkTest [title] body].

Definition describe (title : string) (tests : list TestCase) : list TestCase :=
  map (fun t => mkTest (title :: test_title t) (test_body t)) tests.

(** [fs.existsSync(p)] *)
Definition existsSync (fs : gset string) (p : string) : bool :=
  bool_decide (p ∈ fs).

Record File : Type := { name : string }.

Definition filesThatShouldExist : list File :=
  [ {| name := "translations.json" |};
    {| name := "motivation.json" |};
    {| name := "intro.json" |};
    {| name := "meta-tags.json" |};
    {| name := "links.json" |} ].

(** [Object.keys] of an enum object. *)
Definition Object_keys (o : list (string * string)) : list string := map fst o.

Section Suite.

(** [__dirname] and the imports from [config/i18n]. *)
Variable dirname : string.
Variable availableLangs_client : list string.
Variable LangNames : list (string * string).
Variable LangCodes : list (string * string).

Definition path : string := dirname +:+ "/locales".

Definition file_path (lang : string) (file : File) : string :=
  path +:+ "/" +:+ lang +:+ "/" +:+ name file.

(** The callback of [availableLangs.client.forEach]. *)
Definition lang_tests (lang : string) : list TestCase :=
  describe ("-- " +:+ lang +:+ " --")
    (flat_map
       (fun file =>
          test (name file +:+ " file exists")
            (fun fs =>
               let exists_ := existsSync fs (file_path lang file) in
               ([file_path lang file], exists_)))
       filesThatShouldExist
     ++ test "has an entry in the langDisplayNames enum"
          (fun _ =>
             ([], Bool.eqb
                    (includes (map toLowerCase (Object_keys LangNames)) lang) true))
     ++ test "has an entry in the langCodes enum"
          (fun _ =>
             ([], Bool.eqb
                    (includes (map toLowerCase (Object_keys LangCodes)) lang) true))).

Definition locale_tests : list TestCase :=
  describe "Locale tests:" (flat_map lang_tests availableLangs_client).

End Suite.

(** Paths probed by a list of tests, and whether they all pass. *)
Definition probed (fs : gset string) (tests : list TestCase) : list string :=
  flat_map (fun t => (test_body t fs).1) tests.

Definition all_pass (fs : gset string) (tests : list TestCase) : bool :=
  forallb (fun t => (test_body t fs).2) tests.

(** An entry of the enum whose key equals [lang] up to letter case. *)
Definition has_entry_ignoring_case (enum : list (string * string)) (lang : string) : Prop :=
  exists key, In key (Object_keys enum) /\ toLowerCase key = toLowerCase lang.

(** An entry of the enum whose lowercased key is [lang] as written. *)
Definition has_lowercased_entry (enum : list (string * string)) (lang : string) : Prop :=
  exists key, In key (Object_keys enum) /\ toLowerCase key = lang.

End LocaleTests.

(** ** The translation formatter: [annotateCode] and [stringifyMd] *)

Module Formatter.

(** An mdast node. *)
#[warnings="-register-all"]
Inductive Node : Type :=
  mkNode (type : string) (value : string) (children : list Node).

(** [root(nodes)] of mdast-builder. *)
Definition root (nodes : list Node) : Node := mkNode "root" "" nodes.

(** The plugins that [baseProcessor] attaches. *)
Inductive SyntaxPlugin : Type := remarkParse | tableAndStrikethrough.

Definition notranslateStart : string := "<notranslate>".
Definition notranslateEnd : string := "</notranslate>".

Fixpoint has_inlineCode (n : Node) : bool :=
  match n with
  | mkNode ty _ cs => String.eqb ty "inlineCode" || existsb has_inlineCode cs
  end.

(** What the helpers use of unified, remark-stringify and
    mdast-util-to-markdown, after the documentation of these libraries: a
    processor collects plugins and the options of the compiler; to-markdown
    renders a node with the handler of its type, which is the one in the
    options if there is one, else the one a plugin has registered as a
    to-markdown extension (a later plugin wins), else the library's.  The
    handlers themselves, the parser and the extension of the repository's
    own plugin (a module that is not among the sources at hand) are
    parameters. *)
Section Library.

(** What to-markdown hands down to a handler besides the node: the stack of
    constructs entered so far, the options, the characters around the
    node. *)
Variable Context : Type.

(** The context to-markdown starts from under the given [fences] and
    [emphasis]. *)
Variable start : bool -> string -> Context.

(** A to-markdown handler: it gets the node, the context, and for each child
    the text that [context.handle] yields for it in the context the handler
    passes down. *)
Definition Handler : Type := Node -> Context -> list (Context -> string) -> string.

(** The options given to [remarkStringify]. *)
Record Options : Type := {
  fences : bool;
  emphasis : string;
  handlers : list (string * Handler)
}.

Record Processor : Type := {
  syntax : list SyntaxPlugin;
  compiler : option Options
}.

Definition unified : Processor := {| syntax := []; compiler := None |}.

Definition use (p : Processor) (plugin : SyntaxPlugin) : Processor :=
  {| syntax := syntax p ++ [plugin]; compiler := compiler p |}.

Definition use_remarkStringify (p : Processor) (o : Options) : Processor :=
  {| syntax := syntax p; compiler := Some o |}.

Definition baseProcessor : Processor :=
  use (use unified remarkParse) tableAndStrikethrough.

Fixpoint lookup_handler (ty : string) (hs : list (string * Handler)) : option Handler :=
  match hs with
  | [] => None
  | (k, h) :: rest => if String.eqb ty k then Some h else lookup_handler ty rest
  end.

(** The parser that unified runs with the given syntax plugins. *)
Variable parse : list SyntaxPlugin -> string -> Node.

(** [inlineCode] of mdast-util-to-markdown/lib/handle, and the other
    handlers of that table by node type. *)
Variable inlineCode : Handler.
Variable defaultHandlers : string -> Handler.

(** The handlers that a plugin registers as its to-markdown extension. *)
Variable extensionHandlers : SyntaxPlugin -> list (string * Handler).

Definition wrapInlineCode : Handler :=
  fun node context kids =>
    notranslateStart +:+ inlineCode node context kids +:+ notranslateEnd.

(** The handler that the plugins of a processor have registered for a node
    type, if any. *)
Definition extension_handler (plugins : list SyntaxPlugin) (ty : string) : option Handler :=
  fold_left
    (fun found plugin =>
       match lookup_handler ty (extensionHandlers plugin) with
       | Some h => Some h
       | None => found
       end)
    plugins None.

(** The handler to-markdown runs on a node type. *)
Definition handler_for (plugins : list SyntaxPlugin) (o : Options) (ty : string) : Handler :=
  match lookup_handler ty (handlers o) with
  | Some h => h
  | None =>
      match extension_handler plugins ty with
      | Some h => h
      | None => if String.eqb ty "inlineCode" then inlineCode else defaultHandlers ty
      end
  end.

Fixpoint toMarkdown (plugins : list SyntaxPlugin) (o : Options) (n : Node)
    : Context -> string :=
  match n with
  | mkNode ty v cs =>
      fun context =>
        handler_for plugins o ty (mkNode ty v cs) context (map (toMarkdown plugins o) cs)
  end.

(** [processor.stringify(tree)]; [None] when no compiler is attached. *)
Definition stringify (p : Processor) (tree : Node) : option string :=
  match compiler p with
  | Some o => Some (toMarkdown (syntax p) o tree (start (fences o) (emphasis o)))
  | None => None
  end.

(** [processor.processSync(md).contents] *)
Definition processSync (p : Processor) (md : string) : option string :=
  stringify p (parse (syntax p) md).

Definition annotate_options : Options :=
  {| fences := true; emphasis := "*";
     handlers := [("inlineCode", wrapInlineCode)] |}.

Definition stringify_options : Options :=
  {| fences := true; emphasis := "*"; handlers := [] |}.

Definition annotate_processor : Processor :=
  use_remarkStringify baseProcessor annotate_options.

Definition stringify_processor : Processor :=
  use_remarkStringify baseProcessor stringify_options.

Definition annotateCode (md : string) : option string :=
  processSync annotate_processor md.

Definition stringifyMd (nodes : list Node) : option string :=
  stringify stringify_processor (root nodes).

End Library.

Arguments fences {Context} _.
Arguments emphasis {Context} _.
Arguments handlers {Context} _.
Arguments syntax {Context} _.
Arguments compiler {Context} _.
Arguments unified {Context}.
Arguments use {Context} _ _.
Arguments use_remarkStringify {Context} _ _.
Arguments baseProcessor {Context}.
Arguments lookup_handler {Context} _ _.
Arguments wrapInlineCode {Context} _.
Arguments extension_handler {Context} _ _ _.
Arguments handler_for {Context} _ _ _ _ _ _.
Arguments toMarkdown {Context} _ _ _ _ _ _.
Arguments stringify {Context} _ _ _ _ _ _.
Arguments processSync {Context} _ _ _ _ _ _ _.
Arguments annotate_options {Context} _.
Arguments stringify_options {Context}.
Arguments annotate_processor {Context} _.
Arguments stringify_processor {Context}.
Arguments annotateCode {Context} _ _ _ _ _ _.
Arguments stringifyMd {Context} _ _ _ _ _.

End Formatter.

(** ** A small instance of the imports, for concrete runs *)

Module Sample.

Definition isProfane (s : string) : bool := String.eqb s "darn".

Definition isValidUsername (s : string) : Validated :=
  if (String.length s <? 3)%nat
  then mkValidated false "is too short"
  else mkValidated true "".

Definition blocklistedUsernames : list string := ["a"; "about"; "admin"].

Definition urlProtocol (s : string) : option string :=
  if String.prefix "https://" s then Some "https:"
  else if String.prefix "http://" s then Some "http:"
  else if String.prefix "ftp://" s then Some "ftp:"
  else None.

Definition formatDateTime (d : option Z) (clock : Z) : string :=
  "Thursday, January 1, 1970 at 12:00:00 AM UTC".

(** The string methods in the sample are the ASCII ones: the text of the
    sample requests and records is ASCII. *)
Definition routes : list Route :=
  settingRoutes toLowerCase trim isProfane isValidUsername blocklistedUsernames
    urlProtocol formatDateTime.

Definition put_email : Route := put_update_my_email toLowerCase formatDateTime.

Definition put_username : Route :=
  put_update_my_username toLowerCase trim isProfane isValidUsername
    blocklistedUsernames.

Definition put_about : Route := put_update_my_about urlProtocol.

Definition camper : gmap string Value :=
  {[ "email" := VStr "camper@example.com";
     "username" := VStr "camper";
     "usernameDisplay" := VStr "Camper";
     "picture" := VStr "https://example.com/old.png";
     "theme" := VStr "default" ]}.

Definition other : gmap string Value :=
  {[ "email" := VStr "other@example.com";
     "username" := VStr "quincy";
     "usernameDisplay" := VStr "Quincy" ]}.

(** Two users, no fault scheduled, clock at 1000. *)
Definition world : World :=
  mkWorld {[ "u1" := camper; "u2" := other ]} [] [] [] [] 200 1000.

(** The same, but the next ORM call will be rejected. *)
Definition world_failing_first : World :=
  mkWorld {[ "u1" := camper; "u2" := other ]}
    [Some "connection lost"] [] [] [] 200 1000.

(** The same, but the second ORM call will be rejected. *)
Definition world_failing_second : World :=
  mkWorld {[ "u1" := camper; "u2" := other ]}
    [None; Some "connection lost"] [] [] [] 200 1000.

Definition flags : schemas.ProfileUI :=
  {| schemas.isLocked := true; schemas.showAbout := false;
     schemas.showCerts := true; schemas.showDonation := false;
     schemas.showHeatMap := true; schemas.showLocation := false;
     schemas.showName := true; schemas.showPoints := false;
     schemas.showPortfolio := true; schemas.showTimeLine := false |}.

(** The address of the mailbox of [n] letters [a] at example.com (a
    well-formed address, which passes [format: 'email']), and a world whose
    only user has the given address. *)
Definition long_email (n : nat) : string :=
  string_of_list_ascii (repeat "a"%char n) +:+ "@example.com".

Definition world_with_email (e : string) : World :=
  mkWorld {[ "u1" := {[ "email" := VStr e ]} ]} [] [] [] [] 200 1000.

(** An i18n configuration whose language names start with a capital. *)
Definition dirname : string := "/client/i18n".
Definition LangNames : list (string * string) :=
  [("English", "English"); ("Espanol", "Espanol")].
Definition LangCodes : list (string * string) :=
  [("English", "en"); ("Espanol", "es")].

(** The same with lowercase language names. *)
Definition lower_LangNames : list (string * string) :=
  [("english", "English"); ("espanol", "Espanol")].
Definition lower_LangCodes : list (string * string) :=
  [("english", "en"); ("espanol", "es")].

(** A file system that holds the five locale files of [lang]. *)
Definition locale_files (lang : string) : gset string :=
  list_to_set (map (LocaleTests.file_path dirname lang) LocaleTests.filesThatShouldExist).

(** A small markdown library: the context is the stack of node types
    entered so far; inline code goes between backquotes; every other node is
    its own text followed by its children, rendered with the node's type
    pushed on the stack. *)
Definition md_start (fences : bool) (emphasis : string) : list string := [].

Definition md_inlineCode : Formatter.Handler (list string) :=
  fun node _ _ => "`" +:+ (let 'Formatter.mkNode _ v _ := node in v) +:+ "`".

Definition md_defaults (ty : string) : Formatter.Handler (list string) :=
  fun node stack kids =>
    (let 'Formatter.mkNode _ v _ := node in v) +:+
    String.concat "" (map (fun kid => kid (ty :: stack)) kids).

Definition md_parse (ps : list Formatter.SyntaxPlugin) (md : string) : Formatter.Node :=
  Formatter.root [Formatter.mkNode "text" md []].

(** A table plugin in the manner of mdast-util-gfm-table: its extension
    brings an [inlineCode] handler of its own, which escapes the pipes of
    inline code that stands in a table cell. *)
Fixpoint escape_pipes (s : string) : string :=
  match s with
  | EmptyString => EmptyString
  | String c rest =>
      if Ascii.eqb c "|"
      then String "\" (String "|" (escape_pipes rest))
      else String c (escape_pipes rest)
  end.

Definition inlineCodeWithTable : Formatter.Handler (list string) :=
  fun node stack kids =>
    let value := md_inlineCode node stack kids in
    if includes stack "tableCell" then escape_pipes value else value.

Definition md_extensions (plugin : Formatter.SyntaxPlugin)
    : list (string * Formatter.Handler (list string)) :=
  match plugin with
  | Formatter.remarkParse => []
  | Formatter.tableAndStrikethrough => [("inlineCode", inlineCodeWithTable)]
  end.

(** A plugin whose extension brings no handler. *)
Definition no_extensions (plugin : Formatter.SyntaxPlugin)
    : list (string * Formatter.Handler (list string)) := [].

End Sample.

(** ** The fields each route writes *)

(** The keys of the [data] object of the route's [update] call. *)
Definition fields_written (route_url : string) : list string :=
  if String.eqb route_url "/update-my-profileui" then ["profileUI"]
  else if String.eqb route_url "/update-my-email" then ["email"]
  else if String.eqb route_url "/update-my-theme" then ["theme"]
  else if String.eqb route_url "/update-my-socials"
    then ["website"; "twitter"; "githubProfile"; "linkedin"]
  else if String.eqb route_url "/update-my-username" then ["username"; "usernameDisplay"]
  else if String.eqb route_url "/update-my-about"
    then ["about"; "name"; "location"; "picture"]
  else if String.eqb route_url "/update-my-keyboard-shortcuts" then ["keyboardShortcuts"]
  else if String.eqb route_url "/update-my-quincy-email" then ["sendQuincyEmail"]
  else if String.eqb route_url "/update-my-honesty" then ["isHonest"]
  else if String.eqb route_url "/update-privacy-terms"
    then ["acceptedPrivacyTerms"; "sendQuincyEmail"]
  else if String.eqb route_url "/update-my-portfolio" then ["portfolio"]
  else [].

(** ** The intro file structure tests *)

Module IntroTests.

(** Reading one of the properties [title], [intro], [blocks]: [None] is the
    TypeError of reading from [null] or [undefined]; a property that is not
    there reads as [undefined], and numbers, booleans, strings and arrays
    have none of the three. *)
Definition get_prop (v : Value) (k : string) : option Value :=
  match v with
  | VUndefined | VNull => None
  | VObj fields =>
      Some (match get_field k fields with Some x => x | None => VUndefined end)
  | _ => Some VUndefined
  end.

(** [typeof v === 'string'] *)
Definition is_string (v : Value) : bool :=
  match v with VStr _ => true | _ => false end.

(** [v instanceof Array] *)
Definition instanceof_Array (v : Value) : bool :=
  match v with VArr _ => true | _ => false end.

(** [v instanceof Object]: arrays are objects too. *)
Definition instanceof_Object (v : Value) : bool :=
  match v with VObj _ | VArr _ => true | _ => false end.

(** [Object.keys(o).map(k => o[k])] of an object or an array. *)
Definition own_values (v : Value) : list Value :=
  match v with
  | VObj fields =>
      map (fun k => match get_field k fields with Some x => x | None => VUndefined end)
          (map fst fields)
  | VArr items => items
  | _ => []
  end.

(** The body of [blocks.forEach]: [false] when an expectation fails or a
    read throws. *)
Definition check_block (block : Value) : bool :=
  match get_prop block "title", get_prop block "intro" with
  | Some title, Some intro => is_string title && instanceof_Array intro
  | _, _ => false
  end.

(** The body of [superblocks.forEach]. *)
Definition check_superBlock (superBlock : Value) : bool :=
  match get_prop superBlock "title", get_prop superBlock "intro",
        get_prop superBlock "blocks" with
  | Some title, Some intro, Some blocks =>
      is_string title && instanceof_Array intro && instanceof_Object blocks &&
      forallb check_block (own_values blocks)
  | _, _, _ => false
  end.

Definition superblocks (typedIntro : Payload) : list string :=
  List.filter (fun key => negb (String.eqb key "misc-text")) (map fst typedIntro).

(** The callback of [describe('Intro file structure tests:')], run on the
    object imported from intro.json: does it get through without a failed
    expectation or a throw? *)
Definition intro_structure_tests (typedIntro : Payload) : bool :=
  forallb
    (fun superBlock =>
       match get_field superBlock typedIntro with
       | Some v => check_superBlock v
       | None => false
       end)
    (superblocks typedIntro).

(** The shape the tests look for, said directly. *)
Definition block_shaped (block : Value) : Prop :=
  exists fields title intro,
    block = VObj fields /\
    get_field "title" fields = Some (VStr title) /\
    get_field "intro" fields = Some (VArr intro).

Definition superBlock_shaped (superBlock : Value) : Prop :=
  exists fields title intro blocks,
    superBlock = VObj fields /\
    get_field "title" fields = Some (VStr title) /\
    get_field "intro" fields = Some (VArr intro) /\
    get_field "blocks" fields = Some blocks /\
    instanceof_Object blocks = true /\
    forall block, In block (own_values blocks) -> block_shaped block.

End IntroTests.

(** ** The navigation links *)

Module NavLinks.

(** A rendered React element. *)
#[warnings="-register-all"]
Inductive Element : Type :=
  | element (type : string) (props : list (string * Value)) (children : list Element)
  | text (s : string).

(** The fields of the user object that the component reads; [None] is a
    field that is not there.  [isDonating] and [picture] are only handed
    on. *)
Record User : Type := {
  username : option string;
  isDonating : Value;
  picture : Value;
  yearsTopContributor : option (list string)
}.

Record FetchState : Type := { pending : bool }.

(** [user && user.isDonating] *)
Definition isUserDonating (user : option User) : Value :=
  match user with
  | Some u => isDonating u
  | None => VUndefined
  end.

(** [user && user.username] *)
Definition isUserSignedIn (user : option User) : Value :=
  match user with
  | Some u => match username u with Some n => VStr n | None => VUndefined end
  | None => VUndefined
  end.

(** [user.username] inside a template literal. *)
Definition username_text (user : option User) : string :=
  match user with
  | Some {| username := Some n |} => n
  | _ => "undefined"
  end.

(** [user && user.yearsTopContributor && user.yearsTopContributor.length > 0] *)
Definition isTopContributor (user : option User) : Value :=
  match user with
  | Some u =>
      match yearsTopContributor u with
      | Some years => VBool (0 <? length years)%nat
      | None => VUndefined
      end
  | None => VUndefined
  end.

Definition curriculum_link : Element :=
  element "li" []
    [element "Link" [("className", VStr "nav-link"); ("to", VStr "/learn")]
       [text "Curriculum"]].

Definition AuthOrProfile (user : option User) (pending : bool) : Element :=
  if pending then
    element "div" [("className", VStr "nav-skeleton")] [element "SkeletonSprite" [] []]
  else if negb (truthy (isUserSignedIn user)) then
    element "Fragment" []
      [curriculum_link;
       element "Login" [("data-test-label", VStr "landing-small-cta")] [text "Sign In"]]
  else
    element "Fragment" []
      [curriculum_link;
       element "li" []
         [element "Link"
            [("className", VStr "nav-link");
             ("to", VStr ("/" +:+ username_text user))]
            [text "Profile";
             element "AvatarRenderer"
               [("isDonating", isUserDonating user);
                ("isTopContributor", isTopContributor user);
                ("picture", match user with Some u => picture u | None => VUndefined end);
                ("userName", isUserSignedIn user)]
               []]]].

(** [None] is the TypeError of destructuring an absent [fetchState]. *)
Definition NavLinks (displayMenu : bool) (user : option User)
    (fetchState : option FetchState) : option Element :=
  match fetchState with
  | None => None
  | Some state =>
      Some
        (element "div" [("className", VStr "main-nav-group")]
           [element "ul"
              [("className",
                VStr ("nav-list" +:+ (if displayMenu then " display-flex" else "")))]
              [AuthOrProfile user (pending state)]])
  end.

(** How many elements of the given type a tree holds, and the targets of
    its links. *)
Fixpoint count_type (ty : string) (e : Element) : nat :=
  match e with
  | element t _ children =>
      ((if String.eqb t ty then 1 else 0) + list_sum (map (count_type ty) children))%nat
  | text _ => 0%nat
  end.

Fixpoint link_targets (e : Element) : list Value :=
  match e with
  | element t props children =>
      (if String.eqb t "Link"
       then match get_field "to" props with Some v => [v] | None => [] end
       else [])
      ++ flat_map link_targets children
  | text _ => []
  end.

End NavLinks.

(** ** More sample data *)

Module Fixtures.

Definition item : schemas.PortfolioItem :=
  {| schemas.id := Some "p1"; schemas.title := Some "Tribute page";
     schemas.url := None; schemas.description := Some "";
     schemas.image := Some "https://example.com/shot.png" |}.

Definition intro_json : Payload :=
  [ ("responsive-web-design",
     VObj [("title", VStr "Responsive Web Design");
           ("intro", VArr [VStr "Learn HTML and CSS."]);
           ("blocks",
            VObj [("basic-html",
                   VObj [("title", VStr "Basic HTML");
                         ("intro", VArr [])])])]);
    ("misc-text", VObj [("certification", VStr "{{cert}} Certification")]) ].

(** A user who has accepted the privacy terms, alone in the store. *)
Definition agreed : gmap string Value :=
  {[ "acceptedPrivacyTerms" := VBool true; "sendQuincyEmail" := VBool true ]}.

Definition world_agreed : World :=
  mkWorld {[ "u1" := agreed ]} [] [] [] [] 200 1000.

Definition signed_in : NavLinks.User :=
  {| NavLinks.username := Some "camper"; NavLinks.isDonating := VBool true;
     NavLinks.picture := VStr "https://example.com/camper.png";
     NavLinks.yearsTopContributor := Some ["2020"] |}.

End Fixtures.

(** * Properties *)

(** ** Strings *)

Lemma lower_ascii_idempotent (c : ascii) : lower_ascii (lower_ascii c) = lower_ascii c.
Proof. destruct c as [[] [] [] [] [] [] [] []]; reflexivity. Qed.

Lemma toLowerCase_idempotent (s : string) : toLowerCase (toLowerCase s) = toLowerCase s.
Proof.
  induction s as [|c s IH]; simpl; [reflexivity|].
  now rewrite lower_ascii_idempotent, IH.
Qed.

Lemma toLowerCase_length (s : string) : String.length (toLowerCase s) = String.length s.
Proof. induction s as [|c s IH]; simpl; congruence. Qed.

Lemma append_length (s t : string) :
  String.length (s +:+ t) = (String.length s + String.length t)%nat.
Proof. induction s as [|c s IH]; simpl; [reflexivity | now rewrite IH]. Qed.

Lemma includes_In (l : list string) (x : string) : includes l x = true <-> In x l.
Proof.
  unfold includes. rewrite existsb_exists. split.
  - intros [y [Hy Heq]]. apply String.eqb_eq in Heq. now subst.
  - intros H. exists x. split; [assumption | apply String.eqb_refl].
Qed.

(** ** The ORM primitives *)

Lemma next_fault_users (w : World) : users (next_fault w).2 = users w.
Proof. unfold next_fault. now destruct (faults w). Qed.

Lemma next_fault_calls (w : World) : ormCalls (next_fault w).2 = ormCalls w.
Proof. unfold next_fault. now destruct (faults w). Qed.

Lemma next_fault_log (w : World) : errorLog (next_fault w).2 = errorLog w.
Proof. unfold next_fault. now destruct (faults w). Qed.

Lemma next_fault_status (w : World) : statusCode (next_fault w).2 = statusCode w.
Proof. unfold next_fault. now destruct (faults w). Qed.

Lemma next_fault_hd (w : World) : (next_fault w).1 = hd None (faults w).
Proof. unfold next_fault. now destruct (faults w). Qed.

Lemma next_fault_tl (w : World) : faults (next_fault w).2 = tl (faults w).
Proof. unfold next_fault. destruct (faults w) eqn:E; simpl; [exact E | reflexivity]. Qed.

(** An update that is not rejected rewrites exactly the caller's document. *)
Lemma prisma_user_update_ok (id : string) (data : Payload) (w : World) (u : Doc) :
  hd None (faults w) = None ->
  users w !! id = Some u ->
  exists w',
    prisma_user_update id data w = (inr tt, w') /\
    users w' = <[id := apply_data data u]> (users w) /\
    ormCalls w' = ormCalls w ++ [(Update, None)] /\
    errorLog w' = errorLog w /\
    statusCode w' = statusCode w /\
    faults w' = tl (faults w).
Proof.
  intros Hf Hu. unfold prisma_user_update.
  destruct (next_fault w) as [f w1] eqn:E.
  assert (f = None) as -> by (rewrite <- Hf, <- next_fault_hd, E; reflexivity).
  assert (w1 = (next_fault w).2) as -> by (rewrite E; reflexivity).
  rewrite next_fault_users, Hu. eexists. split; [reflexivity|].
  simpl. rewrite next_fault_users, next_fault_calls, next_fault_log,
    next_fault_status, next_fault_tl. repeat split; reflexivity.
Qed.

(** A rejected update changes no document. *)
Lemma prisma_user_update_users (id : string) (data : Payload) (w : World) :
  forall e w', prisma_user_update id data w = (inl e, w') ->
    users w' = users w /\
    ormCalls w' = ormCalls w ++ [(Update, Some e)] /\
    errorLog w' = errorLog w.
Proof.
  intros e w'. unfold prisma_user_update.
  destruct (next_fault w) as [f w1] eqn:E.
  assert (w1 = (next_fault w).2) as -> by (rewrite E; reflexivity).
  destruct f as [e0|].
  - intros [= <- <-]. simpl.
    rewrite next_fault_users, next_fault_calls, next_fault_log. auto.
  - destruct (users (next_fault w).2 !! id) eqn:Hu; [discriminate|].
    intros [= <- <-]. simpl.
    rewrite next_fault_users, next_fault_calls, next_fault_log. auto.
Qed.

Lemma apply_data_single (k : string) (v : Value) (u : Doc) :
  v <> VUndefined -> apply_data [(k, v)] u = <[k := v]> u.
Proof. intros Hv. unfold apply_data. destruct v; simpl; (reflexivity || congruence). Qed.

(** ** [/update-my-profileui] *)

(** C4: a successful [PUT /update-my-profileui] (the caller's record exists
    and the update is not rejected) stores the ten flags of the request
    body under [profileUI], leaves every other field of the caller's
    document and every other document as they were, and answers 200 with
    [{ message: 'flash.privacy-updated', type: 'success' }]. *)
Theorem profileui_update_frame
    (uid : string) (p : schemas.ProfileUI) (w : World) (u : Doc) :
  users w !! uid = Some u ->
  hd None (faults w) = None ->
  exists w' u',
    dispatch put_update_my_profileui uid {| schemas.profileUI := p |} None w =
      (Sent 200 [("message", VStr "flash.privacy-updated"); ("type", VStr "success")], w') /\
    users w' !! uid = Some u' /\
    u' !! "profileUI" =
      Some (VObj [("isLocked", VBool (schemas.isLocked p));
                  ("showAbout", VBool (schemas.showAbout p));
                  ("showCerts", VBool (schemas.showCerts p));
                  ("showDonation", VBool (schemas.showDonation p));
                  ("showHeatMap", VBool (schemas.showHeatMap p));
                  ("showLocation", VBool (schemas.showLocation p));
                  ("showName", VBool (schemas.showName p));
                  ("showPoints", VBool (schemas.showPoints p));
                  ("showPortfolio", VBool (schemas.showPortfolio p));
                  ("showTimeLine", VBool (schemas.showTimeLine p))]) /\
    (forall field, field <> "profileUI" -> u' !! field = u !! field) /\
    (forall id, id <> uid -> users w' !! id = users w !! id).
Proof.
  intros Hu Hf.
  destruct (prisma_user_update_ok uid [("profileUI", profileUI_value p)]
              (set_status 200 w) u Hf Hu)
    as (w' & Hrun & Husers & _ & _ & Hst & _).
  exists w', (<["profileUI" := profileUI_value p]> u).
  split.
  - unfold dispatch, run_handler; simpl.
    unfold update_my_profileui, try_catch, bind; simpl.
    unfold profileUI_value in Hrun. rewrite Hrun. simpl. now rewrite Hst.
  - rewrite apply_data_single in Husers by (unfold profileUI_value; discriminate).
    rewrite Husers. simpl. repeat split.
    + apply lookup_insert_eq.
    + apply lookup_insert_eq.
    + intros field Hne. now apply lookup_insert_ne.
    + intros id Hne. now apply lookup_insert_ne.
Qed.

Lemma profileui_update_frame_witness :
  exists w' u',
    dispatch put_update_my_profileui "u1" {| schemas.profileUI := Sample.flags |} None
      Sample.world =
      (Sent 200 [("message", VStr "flash.privacy-updated"); ("type", VStr "success")], w') /\
    users w' !! "u1" = Some u' /\
    u' !! "profileUI" = Some (profileUI_value Sample.flags) /\
    (forall field, field <> "profileUI" -> u' !! field = Sample.camper !! field) /\
    (forall id, id <> "u1" -> users w' !! id = users Sample.world !! id).
Proof.
  apply (profileui_update_frame "u1" Sample.flags Sample.world Sample.camper).
  - vm_compute. reflexivity.
  - reflexivity.
Defined.

(** ** Serialised replies *)

(** The imported schemas let a payload through. *)
Lemma serialize_reply_schemas (status : nat) (payload : Payload) :
  serialize_reply schemas_response status payload = Some payload.
Proof. reflexivity. Qed.

(** The three shapes of payload that [/update-my-email] returns, through
    the schema of their status code. *)
Lemma email_reply_400_danger (m : string) :
  serialize_reply update_my_email_response 400
    [("message", VStr m); ("type", VStr "danger")] =
  Some [("message", VStr m); ("type", VStr "danger")].
Proof. reflexivity. Qed.

Lemma email_reply_400_info (m : string) :
  serialize_reply update_my_email_response 400
    [("type", VStr "info"); ("message", VStr m)] =
  Some [("message", VStr m); ("type", VStr "info")].
Proof. reflexivity. Qed.

Lemma email_reply_200_info (m : string) :
  serialize_reply update_my_email_response 200
    [("type", VStr "info"); ("message", VStr m)] =
  Some [("message", VStr "flash.email-valid"); ("type", VStr "success")].
Proof. reflexivity. Qed.

(** ** Running the handlers on an arbitrary world *)

Ltac unfold_orm :=
  unfold prisma_user_update, prisma_user_findUniqueOrThrow,
    prisma_user_findFirstOrThrow, prisma_user_count, find_or_throw, next_fault,
    optional_trim, string_of, report_error, log_error, log_info, reply_code,
    reply_send, fastify_errorHandler, get_world, try_catch, bind, ret, throw,
    record_call, set_users, set_faults, append_log, append_info, set_status in *.

Ltac unfold_handlers :=
  unfold put_update_my_profileui, put_update_my_email, put_update_my_theme,
    put_update_my_socials, put_update_my_username, put_update_my_about,
    put_update_my_keyboard_shortcuts, put_update_my_quincy_email,
    put_update_my_honesty, put_update_privacy_terms, put_update_my_portfolio,
    update_my_profileui, update_my_email, update_my_theme, update_my_socials,
    update_my_username, update_my_about, update_my_keyboard_shortcuts,
    update_my_quincy_email, update_my_honesty, update_privacy_terms,
    update_my_portfolio, updateErrorHandler, fiveMinuteLimit, isPast in *.

(** A payload is serialised once its shape is known. *)
Arguments serialize_reply : simpl nomatch.

Ltac reduce_terms :=
  cbn -[String.eqb includes isPictureWithProtocol
        apply_data same_email_message already_sent_message
        invalid_username_message select_fields users_named] in *.

Ltac reduce :=
  reduce_terms;
  try (progress
         (repeat match goal with
                 | |- context [serialize_reply update_my_email_response ?status ?payload] =>
                     first [ rewrite email_reply_400_danger
                           | rewrite email_reply_400_info
                           | rewrite email_reply_200_info ]
                 end);
       reduce_terms).

(** Case analysis on the innermost scrutinee of the goal. *)
Ltac split_match :=
  match goal with
  | |- context [match ?x with _ => _ end] =>
      lazymatch x with
      | context [match _ with _ => _ end] => fail
      | _ => first [ is_var x; destruct x | destruct x eqn:? ]
      end
  end.

Ltac run_cases := repeat (split_match; reduce).

(** The members of [settingRoutes], one goal a route. *)
Ltac each_route H :=
  unfold settingRoutes in H; simpl in H;
  repeat (destruct H as [<- | H]); [ .. | contradiction H ].

Ltac open_request uid b invalid w :=
  destruct w as [us fs calls log ilog st nw];
  unfold dispatch, run_handler, run_error_handler, serialized;
  unfold_handlers; reduce.

(** ** The shape of the replies *)



Section Replies.

Variable toLowerCase : string -> string.
Variable trim : string -> string.
Variable isProfane : string -> bool.
Variable isValidUsername : string -> Validated.
Variable blocklistedUsernames : list string.
Variable urlProtocol : string -> option string.
Variable formatDateTime : option Z -> Z -> string.

Local Abbreviation routes :=
  (settingRoutes toLowerCase trim isProfane isValidUsername blocklistedUsernames
     urlProtocol formatDateTime).


End Replies.


(** C5: a body that fails the schema of [/update-my-about] is answered by
    Fastify's own error handler, with status 400 and Fastify's rendering of
    the validation error, which is not a flash message: the route registers
    neither [updateErrorHandler] nor [attachValidation].  On its sibling
    [/update-my-theme], which does register [updateErrorHandler], the same
    failure is answered with the flash message 'flash.wrong-updating'. *)
Theorem about_validation_failure_is_not_flash :
  (dispatch Sample.put_about "u1"
     {| schemas.about := ""; schemas.name := ""; schemas.location := "";
        schemas.picture := None |}
     (Some "body must have required property 'about'") Sample.world).1
  = DefaultErrorHandler 400 (ValidationError "body must have required property 'about'") /\
  (dispatch put_update_my_theme "u1" {| schemas.theme := "" |}
     (Some "body must have required property 'theme'") Sample.world).1
  = Sent 400 [("message", VStr "flash.wrong-updating"); ("type", VStr "danger")] /\
  ~ (exists status payload,
       (dispatch Sample.put_about "u1"
          {| schemas.about := ""; schemas.name := ""; schemas.location := "";
             schemas.picture := None |}
          (Some "body must have required property 'about'") Sample.world).1
       = Sent status payload /\ flash_shaped payload).
Proof.
  split; [vm_compute; reflexivity |]. split; [vm_compute; reflexivity |].
  intros (status & payload & H & _). vm_compute in H. discriminate H.
Qed.

(** ** [/update-my-email] *)

Lemma select_fields_lookup (ks : list string) (u : Doc) (k : string) :
  In k ks -> select_fields (Some ks) u !! k = u !! k.
Proof.
  intros Hk. unfold select_fields. apply option_eq. intros v.
  rewrite map_lookup_filter_Some. simpl. rewrite includes_In. tauto.
Qed.

(** A submitted email that equals the stored one up to letter case is
    refused with 400 and an [info] flash, and nothing is written. *)
Lemma update_my_email_same (toLowerCase : string -> string)
    (formatDateTime : option Z -> Z -> string)
    (uid email stored : string) (w : World) (u : Doc) :
  users w !! uid = Some u ->
  u !! "email" = Some (VStr stored) ->
  hd None (faults w) = None ->
  toLowerCase email = toLowerCase stored ->
  exists w',
    dispatch (put_update_my_email toLowerCase formatDateTime) uid
      {| schemas.email := email |} None w =
      (Sent 400 [("message", VStr (same_email_message (toLowerCase email)));
                 ("type", VStr "info")], w') /\
    users w' = users w /\
    new_calls w w' = [(FindUniqueOrThrow, None)].
Proof.
  intros Hu He Hf Hsame.
  open_request uid b invalid w. simpl in Hu, Hf. unfold_orm. reduce.
  assert (Hsel : select_fields (Some ["email"]) u !! "email" = Some (VStr stored))
    by (rewrite select_fields_lookup; [assumption | simpl; auto]).
  destruct fs as [|[e|] fs]; try discriminate Hf; reduce;
    rewrite Hu; reduce; rewrite Hsel; reduce;
    rewrite Hsame, String.eqb_refl; reduce;
    (eexists; split; [reflexivity | split; [reflexivity |]]);
    unfold new_calls; simpl; apply drop_app_length.
Qed.

Lemma new_calls_app (tr evs : list OrmEvent) : drop (length tr) (tr ++ evs) = evs.
Proof. apply drop_app_length. Qed.

Ltac trace_simpl :=
  unfold calls_during, new_calls in *; reduce;
  repeat rewrite <- app_assoc in *;
  repeat rewrite new_calls_app in *;
  repeat rewrite drop_all in *;
  reduce.

(** The handler answers before it reaches its update: [isPast] of the
    unassigned [fiveMinuteLimit] is false. *)
Lemma update_my_email_never_writes (toLowerCase : string -> string)
    (formatDateTime : option Z -> Z -> string)
    (uid email : string) (invalid : option string) (w : World) :
  users (dispatch (put_update_my_email toLowerCase formatDateTime) uid
           {| schemas.email := email |} invalid w).2 = users w.
Proof.
  open_request uid b invalid w.
  destruct invalid; reduce; unfold_orm; reduce; run_cases; reflexivity.
Qed.

(** A new address: one read, no write, and the reply that leaves the server
    is the one of the 200 response schema. *)
Lemma update_my_email_new_address (toLowerCase : string -> string)
    (formatDateTime : option Z -> Z -> string)
    (uid email stored : string) (w : World) (u : Doc) :
  users w !! uid = Some u ->
  u !! "email" = Some (VStr stored) ->
  hd None (faults w) = None ->
  toLowerCase email <> toLowerCase stored ->
  exists w',
    dispatch (put_update_my_email toLowerCase formatDateTime) uid
      {| schemas.email := email |} None w =
      (Sent 200 [("message", VStr "flash.email-valid"); ("type", VStr "success")], w') /\
    users w' = users w /\
    new_calls w w' = [(FindUniqueOrThrow, None)].
Proof.
  intros Hu He Hf Hdiff.
  open_request uid b invalid w. simpl in Hu, Hf. unfold_orm. reduce.
  assert (Hsel : select_fields (Some ["email"]) u !! "email" = Some (VStr stored))
    by (rewrite select_fields_lookup; [assumption | simpl; auto]).
  apply String.eqb_neq in Hdiff.
  destruct fs as [|[e|] fs]; try discriminate Hf; reduce;
    rewrite Hu; reduce; rewrite Hsel; reduce; rewrite Hdiff; reduce;
    (eexists; split; [reflexivity | split; [reflexivity |]]);
    unfold new_calls; simpl; apply drop_app_length.
Qed.

(** C10: a signed-in user whose stored address is camper@example.com
    submits New@Example.com.  The reply is 200 with [{ message:
    'flash.email-valid', type: 'success' }], yet the handler has only read
    the record: the stored address is still the old one and no [update] was
    issued.  (The update of the handler sits behind [!isPast(fiveMinuteLimit)],
    and [fiveMinuteLimit] is never assigned.) *)
Theorem update_my_email_success_without_update :
  exists w',
    dispatch Sample.put_email "u1" {| schemas.email := "New@Example.com" |} None
      Sample.world =
      (Sent 200 [("message", VStr "flash.email-valid"); ("type", VStr "success")], w') /\
    users w' = users Sample.world /\
    users w' !! "u1" ≫= (fun u => u !! "email") = Some (VStr "camper@example.com") /\
    new_calls Sample.world w' = [(FindUniqueOrThrow, None)].
Proof.
  eexists. split; [vm_compute; reflexivity |].
  split; [reflexivity |]. split; vm_compute; reflexivity.
Qed.

(** ** The messages of the replies *)

Ltac in_list := simpl; repeat (first [ left; reflexivity | right ]); fail.

Ltac leaf_message :=
  eexists; split;
  [ reflexivity
  | first [ left; in_list
          | right; left; reflexivity
          | right; right; reflexivity ] ].

Section Messages.

Variable toLowerCase : string -> string.
Variable trim : string -> string.
Variable isProfane : string -> bool.
Variable isValidUsername : string -> Validated.
Variable blocklistedUsernames : list string.
Variable urlProtocol : string -> option string.
Variable formatDateTime : option Z -> Z -> string.

Local Abbreviation routes :=
  (settingRoutes toLowerCase trim isProfane isValidUsername blocklistedUsernames
     urlProtocol formatDateTime).

Lemma messages_of_fixed_key_routes (r : Route) :
  In r routes ->
  url r <> "/update-my-email" ->
  url r <> "/update-my-username" ->
  forall uid (b : Body r) invalid w,
    match (dispatch r uid b invalid w).1 with
    | Sent _ payload => exists m, message_of payload = Some m /\ In m flash_keys
    | DefaultErrorHandler status e =>
        url r = "/update-my-about" /\ status = 400%nat /\
        exists msg, invalid = Some msg /\ e = ValidationError msg
    end.
Proof.
  intros Hr Hemail Husername uid b invalid w.
  each_route Hr; try (exfalso; apply Hemail; reflexivity);
    try (exfalso; apply Husername; reflexivity);
    open_request uid b invalid w; destruct invalid; reduce;
    unfold_orm; reduce; run_cases;
    first [ eexists; split; [reflexivity | in_list]
          | split; [reflexivity | split; [reflexivity | eexists; split; reflexivity]] ].
Qed.

Lemma messages_of_update_my_email uid email invalid w :
  match
    (dispatch (put_update_my_email toLowerCase formatDateTime) uid
       {| schemas.email := email |} invalid w).1
  with
  | Sent _ payload =>
      exists m, message_of payload = Some m /\
        (In m flash_keys \/
         m = "Email format is invalid" \/
         m = same_email_message (toLowerCase email))
  | DefaultErrorHandler status e =>
      status = 500%nat /\ invalid = None /\
      errorLog
        (dispatch (put_update_my_email toLowerCase formatDateTime) uid
           {| schemas.email := email |} invalid w).2 = errorLog w ++ [e]
  end.
Proof.
  open_request uid b invalid w. destruct invalid; reduce;
    unfold_orm; reduce; run_cases;
    first [ leaf_message | split; [reflexivity | split; reflexivity] ].
Qed.

Lemma messages_of_update_my_username uid name invalid w :
  exists status payload m,
    (dispatch (put_update_my_username toLowerCase trim isProfane isValidUsername
                 blocklistedUsernames)
       uid {| schemas.username := name |} invalid w).1 = Sent status payload /\
    message_of payload = Some m /\
    (In m flash_keys \/
     invalid = Some m \/
     m = invalid_username_message (toLowerCase (trim name))
           (isValidUsername (toLowerCase (trim name)))).
Proof.
  open_request uid b invalid w. destruct invalid; reduce;
    unfold_orm; reduce; run_cases;
    do 3 eexists; (split; [reflexivity |]); (split; [reflexivity |]);
    first [ left; in_list | right; left; reflexivity | right; right; reflexivity ].
Qed.

(** C1, as amended.  The nine endpoints other than [/update-my-email] and
    [/update-my-username] only ever send one of the translation keys of
    [flash_keys]; the one reply among them that the plugin does not send
    is Fastify's answer to a body that fails the schema of
    [/update-my-about].  [/update-my-email] sends such a key, or the literal
    'Email format is invalid', or the sentence '<email> is already
    associated with this account...' built from the lowercased submitted
    email; an error thrown by its read of the record is answered by
    Fastify's own error handler, with status 500.  [/update-my-username]
    always answers itself: with such a key, or with the message of the
    schema validation error, or with 'Username <name> <error>' built from
    the submitted name and [isValidUsername]. *)
Theorem messages_of_replies :
  (forall r, In r routes ->
     url r <> "/update-my-email" ->
     url r <> "/update-my-username" ->
     forall uid (b : Body r) invalid w o w',
       dispatch r uid b invalid w = (o, w') ->
       match o with
       | Sent _ payload => exists m, message_of payload = Some m /\ In m flash_keys
       | DefaultErrorHandler status e =>
           url r = "/update-my-about" /\ status = 400%nat /\
           exists msg, invalid = Some msg /\ e = ValidationError msg
       end) /\
  (forall uid email invalid w o w',
     dispatch (put_update_my_email toLowerCase formatDateTime) uid
       {| schemas.email := email |} invalid w = (o, w') ->
     match o with
     | Sent _ payload =>
         exists m, message_of payload = Some m /\
           (In m flash_keys \/
            m = "Email format is invalid" \/
            m = same_email_message (toLowerCase email))
     | DefaultErrorHandler status e =>
         status = 500%nat /\ invalid = None /\ errorLog w' = errorLog w ++ [e]
     end) /\
  (forall uid name invalid w o w',
     dispatch (put_update_my_username toLowerCase trim isProfane isValidUsername
                 blocklistedUsernames)
       uid {| schemas.username := name |} invalid w = (o, w') ->
     exists status payload m,
       o = Sent status payload /\ message_of payload = Some m /\
       (In m flash_keys \/
        invalid = Some m \/
        m = invalid_username_message (toLowerCase (trim name))
              (isValidUsername (toLowerCase (trim name))))).
Proof.
  split; [| split].
  - intros r Hr Hemail Husername uid b invalid w o w' Hrun.
    pose proof (messages_of_fixed_key_routes r Hr Hemail Husername uid b invalid w) as H.
    now rewrite Hrun in H.
  - intros uid email invalid w o w' Hrun.
    pose proof (messages_of_update_my_email uid email invalid w) as H.
    now rewrite Hrun in H.
  - intros uid name invalid w o w' Hrun.
    pose proof (messages_of_update_my_username uid name invalid w) as H.
    now rewrite Hrun in H.
Qed.

End Messages.

Lemma messages_of_replies_witness :
  (exists m,
     message_of [("message", VStr "flash.updated-themes"); ("type", VStr "success")]
       = Some m /\ In m flash_keys) /\
  (exists status payload m,
     Sent 400 [("message", VStr "Username a is too short"); ("type", VStr "info")]
       = Sent status payload /\
     message_of payload = Some m /\
     (In m flash_keys \/
      None = Some m \/
      m = invalid_username_message (toLowerCase (trim "a"))
            (Sample.isValidUsername (toLowerCase (trim "a"))))).
Proof.
  pose proof (messages_of_replies toLowerCase trim Sample.isProfane
                Sample.isValidUsername Sample.blocklistedUsernames Sample.urlProtocol
                Sample.formatDateTime) as (Hkeys & _ & Husername).
  split.
  - apply (Hkeys put_update_my_theme) with
      (uid := "u1") (b := {| schemas.theme := "night" |}) (invalid := None)
      (w := Sample.world)
      (o := Sent 200 [("message", VStr "flash.updated-themes"); ("type", VStr "success")])
      (w' := (dispatch put_update_my_theme "u1" {| schemas.theme := "night" |} None
                Sample.world).2).
    + do 2 right. left. reflexivity.
    + simpl. discriminate.
    + simpl. discriminate.
    + vm_compute. reflexivity.
  - apply Husername with
      (uid := "u1") (w := Sample.world)
      (w' := (dispatch Sample.put_username "u1" {| schemas.username := "a" |} None
                Sample.world).2).
    vm_compute. reflexivity.
Defined.

Lemma long_email_length (n : nat) :
  String.length (Sample.long_email n) = (n + 12)%nat.
Proof.
  unfold Sample.long_email. rewrite append_length. simpl. f_equal.
  induction n as [|n IH]; simpl; congruence.
Qed.

Lemma length_le_sum (keys : list string) (m : string) :
  In m keys -> (String.length m <= list_sum (map String.length keys))%nat.
Proof.
  induction keys as [|k keys IH]; simpl; [contradiction|].
  intros [-> | H]; [lia | specialize (IH H); lia].
Qed.

(** C1, as stated, fails: no finite set of keys holds the messages of all
    replies, because [/update-my-email] answers a request for the address
    already on file with a sentence that contains that address.  (The
    addresses used are well-formed, of the form aaa...a@example.com, so the
    request passes the schema of the route.) *)
Lemma messages_not_from_fixed_keys :
  ~ (exists keys : list string,
       forall r, In r Sample.routes ->
         forall uid (b : Body r) invalid w status payload w',
           dispatch r uid b invalid w = (Sent status payload, w') ->
           exists m, message_of payload = Some m /\ In m keys).
Proof.
  intros [keys H].
  remember (Sample.long_email (S (list_sum (map String.length keys)))) as e eqn:He.
  destruct (update_my_email_same toLowerCase Sample.formatDateTime "u1" e e
              (Sample.world_with_email e) {[ "email" := VStr e ]})
    as (w' & Hrun & _).
  - apply lookup_singleton_eq.
  - apply lookup_singleton_eq.
  - reflexivity.
  - reflexivity.
  - apply (H Sample.put_email) in Hrun; [| right; left; reflexivity].
    destruct Hrun as (m & Hm & Hin).
    injection Hm as <-.
    apply length_le_sum in Hin.
    unfold same_email_message in Hin.
    rewrite append_length, toLowerCase_length in Hin.
    rewrite He, long_email_length in Hin. lia.
Qed.

(** ** The ORM calls of the handlers *)

Ltac open_handler req w :=
  destruct w as [us fs calls log ilog st nw]; destruct req as [uid b ve];
  unfold_handlers; reduce; unfold_orm; reduce.

Section Calls.

Variable toLowerCase : string -> string.
Variable trim : string -> string.
Variable isProfane : string -> bool.
Variable isValidUsername : string -> Validated.
Variable blocklistedUsernames : list string.
Variable urlProtocol : string -> option string.
Variable formatDateTime : option Z -> Z -> string.

Local Abbreviation routes :=
  (settingRoutes toLowerCase trim isProfane isValidUsername blocklistedUsernames
     urlProtocol formatDateTime).

Lemma calls_of_single_update_routes (r : Route) :
  In r routes ->
  url r <> "/update-my-email" ->
  url r <> "/update-my-username" ->
  forall (req : Request (Body r)) (w : World),
    calls_during (handler r req) w = [Update].
Proof.
  intros Hr Hemail Husername req w.
  each_route Hr; try (exfalso; apply Hemail; reflexivity);
    try (exfalso; apply Husername; reflexivity);
    open_handler req w; unfold calls_during, new_calls; reduce;
    run_cases; trace_simpl; reflexivity.
Qed.

Lemma calls_of_update_my_email (req : Request schemas.updateMyEmail) (w : World) :
  calls_during (update_my_email toLowerCase formatDateTime req) w =
  match validationError req with
  | Some _ => []
  | None => [FindUniqueOrThrow]
  end.
Proof.
  open_handler req w; unfold calls_during, new_calls; reduce;
    run_cases; trace_simpl; reflexivity.
Qed.

Lemma calls_of_update_my_username (req : Request schemas.updateMyUsername) (w : World) :
  let calls :=
    calls_during
      (update_my_username toLowerCase trim isProfane isValidUsername
         blocklistedUsernames req) w in
  let newUsername := toLowerCase (trim (schemas.username (body req))) in
  calls = [FindFirstOrThrow] \/
  exists u stored,
    users w !! session_user_id req = Some u /\
    u !! "username" = Some (VStr stored) /\
    validationError req = None /\
    ((newUsername = toLowerCase stored /\ calls = [FindFirstOrThrow; Update]) \/
     (newUsername <> toLowerCase stored /\
      (calls = [FindFirstOrThrow; Count] \/
       calls = [FindFirstOrThrow; Count; Update]))).
Proof.
  open_handler req w; unfold calls_during, new_calls; reduce; cbn [select_fields];
    run_cases; trace_simpl;
    first
      [ left; reflexivity
      | right; cbn [select_fields] in *;
        do 2 eexists; split; [reflexivity |]; split; [eassumption |];
        split; [reflexivity |];
        first
          [ left; split; [now apply String.eqb_eq | reflexivity]
          | right; split;
            [now apply String.eqb_neq | first [left; reflexivity | right; reflexivity]] ] ].
Qed.

(** C3, as amended: every handler issues at most one [update], as its
    last ORM call.  The nine handlers other than [/update-my-email] and
    [/update-my-username] make exactly one ORM call, that update.
    [/update-my-email] makes no ORM call when the body failed validation
    and otherwise starts with the read [findUniqueOrThrow] (which, in the
    code at hand, is also where its trace ends).  [/update-my-username]
    always starts with the read [findFirstOrThrow]; it goes on only for a
    body that passed validation and a record that was read; then a new
    name that equals the current one after lowercasing is updated without a
    [count], and a new name that differs is counted first and updated, if
    at all, after the [count]. *)
Theorem orm_calls_of_handlers :
  (forall r, In r routes ->
     forall (req : Request (Body r)) (w : World),
       update_only_last (calls_during (handler r req) w)) /\
  (forall r, In r routes ->
     url r <> "/update-my-email" ->
     url r <> "/update-my-username" ->
     forall (req : Request (Body r)) (w : World),
       calls_during (handler r req) w = [Update]) /\
  (forall (req : Request schemas.updateMyEmail) (w : World),
     calls_during (update_my_email toLowerCase formatDateTime req) w =
     match validationError req with
     | Some _ => []
     | None => [FindUniqueOrThrow]
     end) /\
  (forall (req : Request schemas.updateMyUsername) (w : World),
     let calls :=
       calls_during
         (update_my_username toLowerCase trim isProfane isValidUsername
            blocklistedUsernames req) w in
     let newUsername := toLowerCase (trim (schemas.username (body req))) in
     calls = [FindFirstOrThrow] \/
     exists u stored,
       users w !! session_user_id req = Some u /\
       u !! "username" = Some (VStr stored) /\
       validationError req = None /\
       ((newUsername = toLowerCase stored /\ calls = [FindFirstOrThrow; Update]) \/
        (newUsername <> toLowerCase stored /\
         (calls = [FindFirstOrThrow; Count] \/
          calls = [FindFirstOrThrow; Count; Update])))).
Proof.
  split; [| split; [| split]].
  - intros r Hr req w.
    destruct (String.eqb_spec (url r) "/update-my-email") as [He | He];
      [| destruct (String.eqb_spec (url r) "/update-my-username") as [Hu | Hu]].
    + assert (r = put_update_my_email toLowerCase formatDateTime) as ->
        by (each_route Hr; first [reflexivity | discriminate He]).
      change (handler (put_update_my_email toLowerCase formatDateTime) req)
        with (update_my_email toLowerCase formatDateTime req).
      rewrite calls_of_update_my_email.
      destruct req as [uid b [ve|]]; cbn [validationError].
      * exists []. split; [intros [] | left; reflexivity].
      * exists [FindUniqueOrThrow]. split; [| left; reflexivity].
        intros [H | []]. discriminate H.
    + assert (r = put_update_my_username toLowerCase trim isProfane isValidUsername
                    blocklistedUsernames) as ->
        by (each_route Hr; first [reflexivity | discriminate Hu]).
      change (handler (put_update_my_username toLowerCase trim isProfane isValidUsername
                         blocklistedUsernames) req)
        with (update_my_username toLowerCase trim isProfane isValidUsername
                blocklistedUsernames req).
      destruct (calls_of_update_my_username req w)
        as [-> | (u & stored & _ & _ & _ & [[_ ->] | [_ [-> | ->]]])].
      * exists [FindFirstOrThrow]. split; [| left; reflexivity].
        intros [H | []]. discriminate H.
      * exists [FindFirstOrThrow]. split; [| right; reflexivity].
        intros [H | []]. discriminate H.
      * exists [FindFirstOrThrow; Count]. split; [| left; reflexivity].
        intros [H | [H | []]]; discriminate H.
      * exists [FindFirstOrThrow; Count]. split; [| right; reflexivity].
        intros [H | [H | []]]; discriminate H.
    + rewrite (calls_of_single_update_routes r Hr He Hu).
      exists []. split; [intros [] | right; reflexivity].
  - exact calls_of_single_update_routes.
  - exact calls_of_update_my_email.
  - exact calls_of_update_my_username.
Qed.

End Calls.

Lemma orm_calls_of_handlers_witness :
  calls_during
    (handler put_update_my_honesty
       (mkRequest "u1" {| schemas.isHonest := true |} None))
    Sample.world = [Update].
Proof.
  apply (proj1 (proj2 (orm_calls_of_handlers toLowerCase trim Sample.isProfane
                         Sample.isValidUsername Sample.blocklistedUsernames
                         Sample.urlProtocol Sample.formatDateTime))
           put_update_my_honesty).
  - do 8 right. left. reflexivity.
  - simpl. discriminate.
  - simpl. discriminate.
Defined.

(** C3, as stated, fails: renaming a user reads the record, counts the
    users of the new name and only then updates. *)
Lemma update_my_username_reads_before_update :
  calls_during
    (handler Sample.put_username
       (mkRequest "u1" {| schemas.username := "NewCamper" |} None))
    Sample.world
  = [FindFirstOrThrow; Count; Update]
  /\ ~ (forall r, In r Sample.routes ->
          forall (req : Request (Body r)) (w : World),
            calls_during (handler r req) w = [Update]).
Proof.
  assert (Hcalls :
            calls_during
              (handler Sample.put_username
                 (mkRequest "u1" {| schemas.username := "NewCamper" |} None))
              Sample.world
            = [FindFirstOrThrow; Count; Update]) by (vm_compute; reflexivity).
  split; [exact Hcalls |].
  intros H.
  specialize (H Sample.put_username).
  rewrite H in Hcalls; [discriminate Hcalls |].
  do 4 right. left. reflexivity.
Qed.

(** ** Validation failures and rejected updates *)

Section Errors.

Variable toLowerCase : string -> string.
Variable trim : string -> string.
Variable isProfane : string -> bool.
Variable isValidUsername : string -> Validated.
Variable blocklistedUsernames : list string.
Variable urlProtocol : string -> option string.
Variable formatDateTime : option Z -> Z -> string.

Local Abbreviation routes :=
  (settingRoutes toLowerCase trim isProfane isValidUsername blocklistedUsernames
     urlProtocol formatDateTime).

Lemma validation_failure_reply (r : Route) :
  In r routes ->
  errorHandler r = Some updateErrorHandler ->
  forall uid (b : Body r) msg w,
    dispatch r uid b (Some msg) w =
      (Sent 400 [("message", VStr "flash.wrong-updating"); ("type", VStr "danger")],
       set_status 400 w).
Proof.
  intros Hr Hh uid b msg w.
  each_route Hr; try discriminate Hh; destruct w; reflexivity.
Qed.

Lemma updateErrorHandler_delegates (e : JsError) (w : World) :
  err_validation e = false ->
  updateErrorHandler e w = fastify_errorHandler e w.
Proof. intros He. unfold updateErrorHandler. now rewrite He. Qed.

(** Whatever made the [update] reject, the handler catches it. *)
Lemma rejected_update_reply (r : Route) :
  In r routes ->
  forall uid (b : Body r) invalid w e,
    In (Update, Some e) (new_calls w (dispatch r uid b invalid w).2) ->
    exists w',
      dispatch r uid b invalid w =
        (Sent 500 [("message", VStr "flash.wrong-updating"); ("type", VStr "danger")],
         w') /\
      errorLog w' = errorLog w ++ [e] /\
      users w' = users w.
Proof.
  intros Hr uid b invalid w e.
  each_route Hr; open_request uid b invalid w; destruct invalid; reduce;
    unfold_orm; reduce; run_cases; trace_simpl; intros Hin;
    repeat (destruct Hin as [Hin | Hin]; try discriminate Hin);
    try contradiction; simplify_eq;
    (eexists; split; [reflexivity | split; reflexivity]).
Qed.

(** C2: on a route that uses [updateErrorHandler], a body that fails the
    schema is answered 400 with [{ message: 'flash.wrong-updating', type:
    'danger' }] (and the handler does not run); errors that are not
    validation errors go to [fastify.errorHandler]; and on every route an
    [update] that rejects is caught and logged and the answer is 500
    with the same payload. *)
Theorem update_errors_are_reported :
  (forall r, In r routes ->
     errorHandler r = Some updateErrorHandler ->
     forall uid (b : Body r) msg w,
       dispatch r uid b (Some msg) w =
         (Sent 400 [("message", VStr "flash.wrong-updating"); ("type", VStr "danger")],
          set_status 400 w)) /\
  (forall e w,
     err_validation e = false ->
     updateErrorHandler e w = fastify_errorHandler e w) /\
  (forall r, In r routes ->
     forall uid (b : Body r) invalid w e,
       In (Update, Some e) (new_calls w (dispatch r uid b invalid w).2) ->
       exists w',
         dispatch r uid b invalid w =
           (Sent 500 [("message", VStr "flash.wrong-updating"); ("type", VStr "danger")],
            w') /\
         errorLog w' = errorLog w ++ [e] /\
         users w' = users w).
Proof.
  split; [| split].
  - exact validation_failure_reply.
  - exact updateErrorHandler_delegates.
  - exact rejected_update_reply.
Qed.

End Errors.

Lemma update_errors_are_reported_witness :
  dispatch put_update_my_theme "u1" {| schemas.theme := "night" |}
    (Some "body/theme must be equal to one of the allowed values") Sample.world =
    (Sent 400 [("message", VStr "flash.wrong-updating"); ("type", VStr "danger")],
     set_status 400 Sample.world) /\
  updateErrorHandler RecordNotFound Sample.world =
    fastify_errorHandler RecordNotFound Sample.world /\
  (exists w',
     dispatch put_update_my_theme "u1" {| schemas.theme := "night" |} None
       Sample.world_failing_first =
       (Sent 500 [("message", VStr "flash.wrong-updating"); ("type", VStr "danger")], w') /\
     errorLog w' =
       errorLog Sample.world_failing_first ++ [PrismaError "connection lost"] /\
     users w' = users Sample.world_failing_first).
Proof.
  pose proof (update_errors_are_reported toLowerCase trim Sample.isProfane
                Sample.isValidUsername Sample.blocklistedUsernames Sample.urlProtocol
                Sample.formatDateTime) as (Hvalidation & Hother & Hupdate).
  split; [| split].
  - apply (Hvalidation put_update_my_theme).
    + do 2 right. left. reflexivity.
    + reflexivity.
  - apply Hother. reflexivity.
  - apply (Hupdate put_update_my_theme).
    + do 2 right. left. reflexivity.
    + vm_compute. left. reflexivity.
Defined.

(** ** [/update-my-about] *)

Section About.

Variable urlProtocol : string -> option string.

Lemma isPictureWithProtocol_true (picture : option string) :
  urlProtocol "" = None ->
  (isPictureWithProtocol urlProtocol picture = true <->
   exists s protocol,
     picture = Some s /\ urlProtocol s = Some protocol /\
     (protocol = "http:" \/ protocol = "https:")).
Proof.
  intros Hempty. unfold isPictureWithProtocol. split.
  - destruct picture as [p|]; [| discriminate].
    simpl. destruct (String.eqb p "") eqn:Hp; simpl; [discriminate|].
    destruct (urlProtocol p) as [protocol|] eqn:Hurl; [| discriminate].
    intros H. apply orb_true_iff in H. exists p, protocol.
    repeat split; [assumption |].
    destruct H as [H | H]; apply String.eqb_eq in H; auto.
  - intros (s & protocol & -> & Hurl & Hproto). simpl.
    destruct (String.eqb s "") eqn:Hs; simpl.
    + apply String.eqb_eq in Hs. subst s. congruence.
    + rewrite Hurl. apply orb_true_iff.
      destruct Hproto as [-> | ->]; [left | right]; apply String.eqb_refl.
Qed.

Lemma isPictureWithProtocol_false (picture : option string) :
  picture = None \/
  picture = Some "" \/
  (exists s, picture = Some s /\ urlProtocol s = None) \/
  (exists s protocol,
     picture = Some s /\ urlProtocol s = Some protocol /\
     protocol <> "http:" /\ protocol <> "https:") ->
  isPictureWithProtocol urlProtocol picture = false.
Proof.
  unfold isPictureWithProtocol.
  intros [-> | [-> | [(s & -> & Hurl) | (s & protocol & -> & Hurl & Hhttp & Hhttps)]]];
    try reflexivity.
  - rewrite Hurl. now destruct (negb (truthy (VStr s))).
  - rewrite Hurl. apply String.eqb_neq in Hhttp, Hhttps. rewrite Hhttp, Hhttps.
    now destruct (negb (truthy (VStr s))).
Qed.

Lemma about_without_picture uid about name location picture w u :
  isPictureWithProtocol urlProtocol picture = false ->
  users w !! uid = Some u ->
  hd None (faults w) = None ->
  exists w' u',
    dispatch (put_update_my_about urlProtocol) uid
      {| schemas.about := about; schemas.name := name;
         schemas.location := location; schemas.picture := picture |} None w =
      (Sent 200 [("message", VStr "flash.updated-about-me"); ("type", VStr "success")],
       w') /\
    users w' !! uid = Some u' /\
    u' !! "about" = Some (VStr about) /\
    u' !! "name" = Some (VStr name) /\
    u' !! "location" = Some (VStr location) /\
    u' !! "picture" = u !! "picture" /\
    (forall field, field <> "about" -> field <> "name" -> field <> "location" ->
       u' !! field = u !! field) /\
    (forall id, id <> uid -> users w' !! id = users w !! id).
Proof.
  intros Hpic Hu Hf.
  destruct (prisma_user_update_ok uid
              [("about", VStr about); ("name", VStr name); ("location", VStr location)]
              (set_status 200 w) u Hf Hu)
    as (w' & Hrun & Husers & _ & _ & Hst & _).
  exists w', (<["location" := VStr location]>
                (<["name" := VStr name]> (<["about" := VStr about]> u))).
  split.
  - unfold dispatch, run_handler; simpl.
    unfold update_my_about, try_catch, bind; simpl.
    rewrite Hpic. simpl. rewrite Hrun. simpl. now rewrite Hst.
  - rewrite Husers. simpl. repeat split.
    + apply lookup_insert_eq.
    + now rewrite lookup_insert_ne, lookup_insert_ne, lookup_insert_eq.
    + now rewrite lookup_insert_ne, lookup_insert_eq.
    + apply lookup_insert_eq.
    + now rewrite !lookup_insert_ne.
    + intros field H1 H2 H3. now rewrite !lookup_insert_ne.
    + intros id Hne. now apply lookup_insert_ne.
Qed.

Lemma about_with_picture uid about name location p w u :
  isPictureWithProtocol urlProtocol (Some p) = true ->
  users w !! uid = Some u ->
  hd None (faults w) = None ->
  exists w' u',
    dispatch (put_update_my_about urlProtocol) uid
      {| schemas.about := about; schemas.name := name;
         schemas.location := location; schemas.picture := Some p |} None w =
      (Sent 200 [("message", VStr "flash.updated-about-me"); ("type", VStr "success")],
       w') /\
    users w' !! uid = Some u' /\
    u' !! "picture" = Some (VStr p).
Proof.
  intros Hpic Hu Hf.
  destruct (prisma_user_update_ok uid
              [("about", VStr about); ("name", VStr name); ("location", VStr location);
               ("picture", VStr p)]
              (set_status 200 w) u Hf Hu)
    as (w' & Hrun & Husers & _ & _ & Hst & _).
  exists w', (<["picture" := VStr p]> (<["location" := VStr location]>
                (<["name" := VStr name]> (<["about" := VStr about]> u)))).
  split.
  - unfold dispatch, run_handler, put_update_my_about, update_my_about, try_catch, bind.
    cbn -[isPictureWithProtocol prisma_user_update set_status].
    rewrite Hpic. cbn -[prisma_user_update set_status].
    rewrite Hrun. simpl. now rewrite Hst.
  - rewrite Husers. simpl. split; apply lookup_insert_eq.
Qed.

(** C8: [isPictureWithProtocol] is true exactly when its argument parses
    as a URL whose protocol is [http:] or [https:] (the URL constructor
    rejects the empty string); and a request to [/update-my-about] whose
    picture is absent, empty, not parseable or of another protocol still
    stores [about], [name] and [location] and leaves the stored picture,
    like every other field, as it was. *)
Theorem about_keeps_unusable_picture :
  urlProtocol "" = None ->
  (forall picture,
     isPictureWithProtocol urlProtocol picture = true <->
     exists s protocol,
       picture = Some s /\ urlProtocol s = Some protocol /\
       (protocol = "http:" \/ protocol = "https:")) /\
  (forall uid about name location picture w u,
     picture = None \/
     picture = Some "" \/
     (exists s, picture = Some s /\ urlProtocol s = None) \/
     (exists s protocol,
        picture = Some s /\ urlProtocol s = Some protocol /\
        protocol <> "http:" /\ protocol <> "https:") ->
     users w !! uid = Some u ->
     hd None (faults w) = None ->
     exists w' u',
       dispatch (put_update_my_about urlProtocol) uid
         {| schemas.about := about; schemas.name := name;
            schemas.location := location; schemas.picture := picture |} None w =
         (Sent 200 [("message", VStr "flash.updated-about-me"); ("type", VStr "success")],
          w') /\
       users w' !! uid = Some u' /\
       u' !! "about" = Some (VStr about) /\
       u' !! "name" = Some (VStr name) /\
       u' !! "location" = Some (VStr location) /\
       u' !! "picture" = u !! "picture" /\
       (forall field, field <> "about" -> field <> "name" -> field <> "location" ->
          u' !! field = u !! field) /\
       (forall id, id <> uid -> users w' !! id = users w !! id)).
Proof.
  intros Hempty. split.
  - intros picture. now apply isPictureWithProtocol_true.
  - intros uid about name location picture w u Hpic.
    apply about_without_picture. now apply isPictureWithProtocol_false.
Qed.

End About.

Lemma about_keeps_unusable_picture_witness :
  exists w' u',
    dispatch Sample.put_about "u1"
      {| schemas.about := "I like to code"; schemas.name := "Camper Bot";
         schemas.location := "Earth";
         schemas.picture := Some "ftp://example.com/me.png" |} None Sample.world =
      (Sent 200 [("message", VStr "flash.updated-about-me"); ("type", VStr "success")],
       w') /\
    users w' !! "u1" = Some u' /\
    u' !! "about" = Some (VStr "I like to code") /\
    u' !! "name" = Some (VStr "Camper Bot") /\
    u' !! "location" = Some (VStr "Earth") /\
    u' !! "picture" = Sample.camper !! "picture" /\
    (forall field, field <> "about" -> field <> "name" -> field <> "location" ->
       u' !! field = Sample.camper !! field) /\
    (forall id, id <> "u1" -> users w' !! id = users Sample.world !! id).
Proof.
  apply (proj2 (about_keeps_unusable_picture Sample.urlProtocol eq_refl)).
  - do 3 right. exists "ftp://example.com/me.png", "ftp:".
    repeat split; first [reflexivity | discriminate].
  - vm_compute. reflexivity.
  - reflexivity.
Defined.

(** ** [/update-my-username] *)

Section Username.

Variable toLowerCase : string -> string.
Variable trim : string -> string.
Variable isProfane : string -> bool.
Variable isValidUsername : string -> Validated.
Variable blocklistedUsernames : list string.

Local Abbreviation put_username :=
  (put_update_my_username toLowerCase trim isProfane isValidUsername
     blocklistedUsernames).

(** The update is all the handler ever writes. *)
Lemma username_persisted_form uid name invalid w :
  let w' := (dispatch put_username uid {| schemas.username := name |} invalid w).2 in
  users w' = users w \/
  exists u, users w !! uid = Some u /\
    users w' =
      <[uid := <["usernameDisplay" := VStr (trim name)]>
                 (<["username" := VStr (toLowerCase (trim name))]> u)]> (users w).
Proof.
  open_request uid b invalid w. destruct invalid; reduce;
    unfold_orm; reduce; run_cases;
    first [ left; reflexivity
          | right; simplify_eq; eexists; split; reflexivity ].
Qed.

Lemma username_never_persisted uid name invalid w :
  isProfane (toLowerCase (trim name)) = true \/
  includes blocklistedUsernames (toLowerCase (trim name)) = true \/
  (exists u stored,
     users w !! uid = Some u /\ u !! "username" = Some (VStr stored) /\
     toLowerCase (trim name) <> toLowerCase stored /\
     (0 < users_named (toLowerCase (trim name)) (users w))%nat) ->
  users (dispatch put_username uid {| schemas.username := name |} invalid w).2
    = users w.
Proof.
  intros Hbad.
  open_request uid b invalid w. destruct invalid; reduce;
    unfold_orm; reduce; run_cases; try reflexivity; exfalso;
    destruct Hbad as [Hbad | [Hbad | (u & stored & Hu & Hs & Hne & Hn)]];
    cbn [select_fields] in *; simplify_eq;
    rewrite ?Hbad, ?orb_true_r in *; try discriminate.
  all: repeat match goal with
       | H : (_ =? _)%string = true |- _ => apply String.eqb_eq in H
       | H : (_ || _) = false |- _ => apply orb_false_iff in H; destruct H
       end; try contradiction.
  all: try match goal with
       | H : negb (Z.of_nat _ =? 0)%Z = false |- _ =>
           apply negb_false_iff in H; apply Z.eqb_eq in H; lia
       end.
Qed.

Lemma username_rejected uid name invalid w u stored display :
  users w !! uid = Some u ->
  u !! "username" = Some (VStr stored) ->
  u !! "usernameDisplay" = VStr <$> display ->
  hd None (faults w) = None ->
  hd None (tl (faults w)) = None ->
  isProfane (toLowerCase (trim name)) = true \/
  includes blocklistedUsernames (toLowerCase (trim name)) = true \/
  (toLowerCase (trim name) <> toLowerCase stored /\
   (0 < users_named (toLowerCase (trim name)) (users w))%nat) ->
  exists w',
    dispatch put_username uid {| schemas.username := name |} invalid w =
      (Sent 400
         [("message",
           VStr
             (if String.eqb (toLowerCase (trim name)) (toLowerCase stored) &&
                 match display with
                 | Some d => String.eqb (trim name) (trim d)
                 | None => false
                 end
              then "flash.username-used"
              else
                match invalid with
                | Some msg => msg
                | None =>
                    if negb (valid (isValidUsername (toLowerCase (trim name))))
                    then invalid_username_message (toLowerCase (trim name))
                           (isValidUsername (toLowerCase (trim name)))
                    else "flash.username-taken"
                end));
          ("type", VStr "info")], w') /\
    users w' = users w.
Proof.
  intros Hu Hs Hd Hf1 Hf2 Hbad.
  open_request uid b invalid w. simpl in Hu, Hf1, Hf2, Hbad.
  unfold_orm. reduce. cbn [select_fields].
  destruct fs as [|f1 fs]; simpl in Hf1, Hf2; subst;
    [| destruct fs as [|f2 fs]; simpl in Hf2; subst ];
    reduce; rewrite Hu; reduce; rewrite Hd, Hs;
    destruct display as [d|], invalid as [msg|]; reduce;
    run_cases;
    try (eexists; split; reflexivity);
    exfalso;
    destruct Hbad as [Hbad | [Hbad | [Hne Hn]]];
    rewrite ?Hbad, ?orb_true_r in *; try discriminate;
    repeat match goal with
      | H : (_ =? _)%string = true |- _ => apply String.eqb_eq in H
      | H : (_ || _) = false |- _ => apply orb_false_iff in H; destruct H
      end; try contradiction;
    try match goal with
      | H : negb (Z.of_nat _ =? 0)%Z = false |- _ =>
          apply negb_false_iff in H; apply Z.eqb_eq in H; lia
      end.
Qed.

(** A [count] that the data store rejects is caught: 500, logged, nothing
    written. *)
Lemma username_count_rejected uid name w u stored display msg :
  users w !! uid = Some u ->
  u !! "username" = Some (VStr stored) ->
  u !! "usernameDisplay" = VStr <$> display ->
  hd None (faults w) = None ->
  hd None (tl (faults w)) = Some msg ->
  toLowerCase (trim name) <> toLowerCase stored ->
  valid (isValidUsername (toLowerCase (trim name))) = true ->
  exists w',
    dispatch put_username uid {| schemas.username := name |} None w =
      (Sent 500 [("message", VStr "flash.wrong-updating"); ("type", VStr "danger")], w') /\
    errorLog w' = errorLog w ++ [PrismaError msg] /\
    users w' = users w.
Proof.
  intros Hu Hs Hd Hf1 Hf2 Hne Hvalid.
  open_request uid b invalid w. simpl in Hu, Hf1, Hf2.
  unfold_orm. reduce. cbn [select_fields].
  apply String.eqb_neq in Hne.
  destruct fs as [|f1 fs]; simpl in Hf1, Hf2; subst; [discriminate Hf2 |].
  destruct fs as [|f2 fs]; simpl in Hf2; subst; [discriminate Hf2 |].
  reduce. rewrite Hu. reduce. rewrite Hd, Hs.
  destruct display as [d|]; reduce; rewrite Hne, Hvalid; reduce;
    (eexists; split; [reflexivity | split; reflexivity]).
Qed.

(** A read that the data store rejects is caught in the same way. *)
Lemma username_read_rejected uid name invalid w msg :
  hd None (faults w) = Some msg ->
  exists w',
    dispatch put_username uid {| schemas.username := name |} invalid w =
      (Sent 500 [("message", VStr "flash.wrong-updating"); ("type", VStr "danger")], w') /\
    errorLog w' = errorLog w ++ [PrismaError msg] /\
    users w' = users w.
Proof.
  intros Hf.
  open_request uid b invalid w. simpl in Hf.
  unfold_orm. reduce.
  destruct fs as [|f1 fs]; simpl in Hf; subst; [discriminate Hf |].
  destruct invalid; reduce; (eexists; split; [reflexivity | split; reflexivity]).
Qed.

(** C9, as amended: a username that is profane, on the blocklist or (when
    it differs from the caller's current one) carried by a stored user is
    never persisted: the user collection stays as it was.  When neither
    the read of the caller's record nor the [count] is rejected by the data
    store, the answer is 400 with type [info], and its message is
    'flash.username-taken' unless an earlier guard answers first
    ('flash.username-used' for an unchanged name, the schema validation
    message, or 'Username <name> <error>' from [isValidUsername]); a
    rejected read or [count] is caught, logged and answered 500 with
    'flash.wrong-updating'.  Whatever the request, all the handler can write
    is the lowercased trimmed name as [username] and the trimmed name as
    [usernameDisplay]. *)
Theorem username_rejections uid name invalid w :
  (isProfane (toLowerCase (trim name)) = true \/
   includes blocklistedUsernames (toLowerCase (trim name)) = true \/
   (exists u stored,
      users w !! uid = Some u /\ u !! "username" = Some (VStr stored) /\
      toLowerCase (trim name) <> toLowerCase stored /\
      (0 < users_named (toLowerCase (trim name)) (users w))%nat) ->
   users (dispatch put_username uid {| schemas.username := name |} invalid w).2
     = users w) /\
  (forall u stored display,
     users w !! uid = Some u ->
     u !! "username" = Some (VStr stored) ->
     u !! "usernameDisplay" = VStr <$> display ->
     hd None (faults w) = None ->
     hd None (tl (faults w)) = None ->
     isProfane (toLowerCase (trim name)) = true \/
     includes blocklistedUsernames (toLowerCase (trim name)) = true \/
     (toLowerCase (trim name) <> toLowerCase stored /\
      (0 < users_named (toLowerCase (trim name)) (users w))%nat) ->
     exists w',
       dispatch put_username uid {| schemas.username := name |} invalid w =
         (Sent 400
            [("message",
              VStr
                (if String.eqb (toLowerCase (trim name)) (toLowerCase stored) &&
                    match display with
                    | Some d => String.eqb (trim name) (trim d)
                    | None => false
                    end
                 then "flash.username-used"
                 else
                   match invalid with
                   | Some msg => msg
                   | None =>
                       if negb (valid (isValidUsername (toLowerCase (trim name))))
                       then invalid_username_message (toLowerCase (trim name))
                              (isValidUsername (toLowerCase (trim name)))
                       else "flash.username-taken"
                   end));
             ("type", VStr "info")], w') /\
       users w' = users w) /\
  (forall u stored display msg,
     users w !! uid = Some u ->
     u !! "username" = Some (VStr stored) ->
     u !! "usernameDisplay" = VStr <$> display ->
     hd None (faults w) = None ->
     hd None (tl (faults w)) = Some msg ->
     toLowerCase (trim name) <> toLowerCase stored ->
     valid (isValidUsername (toLowerCase (trim name))) = true ->
     exists w',
       dispatch put_username uid {| schemas.username := name |} None w =
         (Sent 500 [("message", VStr "flash.wrong-updating"); ("type", VStr "danger")],
          w') /\
       errorLog w' = errorLog w ++ [PrismaError msg] /\
       users w' = users w) /\
  (forall msg,
     hd None (faults w) = Some msg ->
     exists w',
       dispatch put_username uid {| schemas.username := name |} invalid w =
         (Sent 500 [("message", VStr "flash.wrong-updating"); ("type", VStr "danger")],
          w') /\
       errorLog w' = errorLog w ++ [PrismaError msg] /\
       users w' = users w) /\
  (let w' := (dispatch put_username uid {| schemas.username := name |} invalid w).2 in
   users w' = users w \/
   exists u, users w !! uid = Some u /\
     users w' =
       <[uid := <["usernameDisplay" := VStr (trim name)]>
                  (<["username" := VStr (toLowerCase (trim name))]> u)]> (users w)).
Proof.
  split; [| split; [| split; [| split]]].
  - apply username_never_persisted.
  - intros u stored display. apply username_rejected.
  - intros u stored display msg. apply username_count_rejected.
  - intros msg. apply username_read_rejected.
  - apply username_persisted_form.
Qed.

End Username.

Lemma username_rejections_witness :
  users (dispatch Sample.put_username "u1" {| schemas.username := " Quincy " |} None
           Sample.world).2 = users Sample.world /\
  (exists w',
     dispatch Sample.put_username "u1" {| schemas.username := " Quincy " |} None
       Sample.world =
       (Sent 400 [("message", VStr "flash.username-taken"); ("type", VStr "info")], w') /\
     users w' = users Sample.world) /\
  (exists w',
     dispatch Sample.put_username "u1" {| schemas.username := " Quincy " |} None
       Sample.world_failing_second =
       (Sent 500 [("message", VStr "flash.wrong-updating"); ("type", VStr "danger")], w') /\
     errorLog w' =
       errorLog Sample.world_failing_second ++ [PrismaError "connection lost"] /\
     users w' = users Sample.world_failing_second).
Proof.
  split; [| split].
  - apply (proj1 (username_rejections toLowerCase trim Sample.isProfane
                    Sample.isValidUsername Sample.blocklistedUsernames "u1" " Quincy "
                    None Sample.world)).
    do 2 right. exists Sample.camper, "camper".
    split; [vm_compute; reflexivity |].
    split; [vm_compute; reflexivity |].
    split; [vm_compute; discriminate | vm_compute; lia].
  - apply (proj1 (proj2 (username_rejections toLowerCase trim Sample.isProfane
                           Sample.isValidUsername Sample.blocklistedUsernames "u1"
                           " Quincy " None Sample.world))
             Sample.camper "camper" (Some "Camper")).
    + vm_compute. reflexivity.
    + vm_compute. reflexivity.
    + vm_compute. reflexivity.
    + reflexivity.
    + reflexivity.
    + do 2 right. split; [vm_compute; discriminate | vm_compute; lia].
  - apply (proj1 (proj2 (proj2 (username_rejections toLowerCase trim Sample.isProfane
                                  Sample.isValidUsername Sample.blocklistedUsernames
                                  "u1" " Quincy " None Sample.world_failing_second)))
             Sample.camper "camper" (Some "Camper") "connection lost").
    + vm_compute. reflexivity.
    + vm_compute. reflexivity.
    + vm_compute. reflexivity.
    + reflexivity.
    + reflexivity.
    + vm_compute. discriminate.
    + reflexivity.
Defined.

(** A free, clean name is stored lowercased, its display form trimmed. *)
Example update_my_username_renames :
  let result :=
    dispatch Sample.put_username "u1" {| schemas.username := "  NewCamper " |} None
      Sample.world in
  result.1 =
    Sent 200 [("message", VStr "flash.username-updated"); ("type", VStr "success");
              ("username", VStr "NewCamper")] /\
  users result.2 !! "u1" =
    Some (<["usernameDisplay" := VStr "NewCamper"]>
            (<["username" := VStr "newcamper"]> Sample.camper)).
Proof. vm_compute. split; reflexivity. Qed.

(** C9, as stated, fails: the name [a] is on the blocklist, yet the answer
    is not 'flash.username-taken', because the [isValidUsername] guard
    comes first. *)
Lemma blocklisted_name_other_message :
  let result :=
    dispatch Sample.put_username "u1" {| schemas.username := "a" |} None Sample.world in
  includes Sample.blocklistedUsernames (toLowerCase (trim "a")) = true /\
  result.1 = Sent 400 [("message", VStr "Username a is too short"); ("type", VStr "info")] /\
  result.1 <> Sent 400 [("message", VStr "flash.username-taken"); ("type", VStr "info")].
Proof. vm_compute. split; [reflexivity | split; [reflexivity | discriminate]]. Qed.

(** ** The locale test suite *)

Module LocaleFacts.
Import LocaleTests.

Section Suite.

Variable dirname : string.
Variable availableLangs_client : list string.
Variable LangNames : list (string * string).
Variable LangCodes : list (string * string).

Local Abbreviation tests_of := (lang_tests dirname LangNames LangCodes).

Lemma includes_lowercased (enum : list (string * string)) (lang : string) :
  includes (map toLowerCase (Object_keys enum)) lang = true <->
  has_lowercased_entry enum lang.
Proof.
  rewrite includes_In, in_map_iff. unfold has_lowercased_entry.
  split; intros (key & H1 & H2); exists key; tauto.
Qed.

Lemma lowercased_entry_ignores_case (enum : list (string * string)) (lang : string) :
  has_lowercased_entry enum lang -> has_entry_ignoring_case enum lang.
Proof.
  intros (key & Hin & <-). exists key. split; [assumption |].
  symmetry. apply toLowerCase_idempotent.
Qed.

Lemma lang_tests_in_suite (lang : string) :
  In lang availableLangs_client ->
  incl (describe "Locale tests:" (tests_of lang))
       (locale_tests dirname availableLangs_client LangNames LangCodes).
Proof.
  intros Hlang t Ht. unfold locale_tests, describe in *.
  apply in_map_iff in Ht. destruct Ht as (t0 & <- & Ht0).
  apply in_map_iff. exists t0. split; [reflexivity |].
  apply in_flat_map. exists lang. split; assumption.
Qed.

Lemma lang_tests_probed (lang : string) (fs : gset string) :
  probed fs (tests_of lang) =
    map (fun file => (dirname +:+ "/locales") +:+ "/" +:+ lang +:+ "/" +:+ file)
      ["translations.json"; "motivation.json"; "intro.json"; "meta-tags.json";
       "links.json"].
Proof. reflexivity. Qed.

Lemma lang_tests_titles (lang : string) :
  map test_title (tests_of lang) =
    map (fun title => ["-- " +:+ lang +:+ " --"; title])
      ["translations.json file exists"; "motivation.json file exists";
       "intro.json file exists"; "meta-tags.json file exists";
       "links.json file exists";
       "has an entry in the langDisplayNames enum";
       "has an entry in the langCodes enum"].
Proof. reflexivity. Qed.

Lemma lang_tests_pass (lang : string) (fs : gset string) :
  all_pass fs (tests_of lang) = true <->
  (forall file,
     In file ["translations.json"; "motivation.json"; "intro.json";
              "meta-tags.json"; "links.json"] ->
     (dirname +:+ "/locales") +:+ "/" +:+ lang +:+ "/" +:+ file ∈ fs) /\
  has_lowercased_entry LangNames lang /\
  has_lowercased_entry LangCodes lang.
Proof.
  rewrite <- !includes_lowercased.
  unfold all_pass, lang_tests, describe, test, existsSync. cbn -[includes].
  rewrite !andb_true_iff, !bool_decide_eq_true.
  rewrite !Bool.eqb_true_iff.
  split.
  - intros (H1 & H2 & H3 & H4 & H5 & H6 & H7 & _).
    split; [| split; assumption].
    intros file [<- | [<- | [<- | [<- | [<- | []]]]]]; assumption.
  - intros (Hfiles & H6 & H7).
    repeat split; try assumption; apply Hfiles; simpl; tauto.
Qed.

(** C6, as amended: for every language of [availableLangs.client] the
    suite holds seven tests; they probe exactly the five files
    translations.json, motivation.json, intro.json, meta-tags.json and
    links.json under [<dirname>/locales/<lang>]; and they all pass
    exactly when those files exist and each of [LangNames] and
    [LangCodes] has a key whose lowercased form equals the language
    name as it is listed.  Such a key matches the name up to letter
    case; for a name listed in lowercase the two notions coincide. *)
Theorem locale_suite_checks (lang : string) :
  In lang availableLangs_client ->
  incl (describe "Locale tests:" (tests_of lang))
       (locale_tests dirname availableLangs_client LangNames LangCodes) /\
  length (tests_of lang) = 7%nat /\
  (forall fs,
     probed fs (tests_of lang) =
       map (fun file => (dirname +:+ "/locales") +:+ "/" +:+ lang +:+ "/" +:+ file)
         ["translations.json"; "motivation.json"; "intro.json"; "meta-tags.json";
          "links.json"]) /\
  (forall fs,
     all_pass fs (tests_of lang) = true <->
     (forall file,
        In file ["translations.json"; "motivation.json"; "intro.json";
                 "meta-tags.json"; "links.json"] ->
        (dirname +:+ "/locales") +:+ "/" +:+ lang +:+ "/" +:+ file ∈ fs) /\
     has_lowercased_entry LangNames lang /\
     has_lowercased_entry LangCodes lang) /\
  (forall enum,
     (has_lowercased_entry enum lang -> has_entry_ignoring_case enum lang) /\
     (toLowerCase lang = lang ->
      has_entry_ignoring_case enum lang -> has_lowercased_entry enum lang)).
Proof.
  intros Hlang. split; [| split; [| split; [| split]]].
  - now apply lang_tests_in_suite.
  - reflexivity.
  - apply lang_tests_probed.
  - apply lang_tests_pass.
  - intros enum. split.
    + apply lowercased_entry_ignores_case.
    + intros Hlower (key & Hin & Heq). exists key. split; congruence.
Qed.

End Suite.

Lemma locale_suite_checks_witness :
  all_pass (Sample.locale_files "english")
    (lang_tests Sample.dirname Sample.lower_LangNames Sample.lower_LangCodes "english")
  = true <->
  (forall file,
     In file ["translations.json"; "motivation.json"; "intro.json";
              "meta-tags.json"; "links.json"] ->
     (Sample.dirname +:+ "/locales") +:+ "/" +:+ "english" +:+ "/" +:+ file
       ∈ Sample.locale_files "english") /\
  has_lowercased_entry Sample.lower_LangNames "english" /\
  has_lowercased_entry Sample.lower_LangCodes "english".
Proof.
  apply (locale_suite_checks Sample.dirname ["english"; "espanol"]
           Sample.lower_LangNames Sample.lower_LangCodes "english").
  simpl. left. reflexivity.
Defined.

(** C6, as stated, fails: with a language listed as [English], the five
    files in place and the key [English] in both enums, the language has
    an entry in each enum up to letter case, yet the two enum tests fail:
    the suite lowercases the keys and compares them with the name as
    listed. *)
Lemma capitalised_language_fails :
  (forall file,
     In file ["translations.json"; "motivation.json"; "intro.json";
              "meta-tags.json"; "links.json"] ->
     (Sample.dirname +:+ "/locales") +:+ "/" +:+ "English" +:+ "/" +:+ file
       ∈ Sample.locale_files "English") /\
  has_entry_ignoring_case Sample.LangNames "English" /\
  has_entry_ignoring_case Sample.LangCodes "English" /\
  all_pass (Sample.locale_files "English")
    (lang_tests Sample.dirname Sample.LangNames Sample.LangCodes "English") = false /\
  map (fun t => (test_title t, (test_body t (Sample.locale_files "English")).2))
    (lang_tests Sample.dirname Sample.LangNames Sample.LangCodes "English")
  = [ (["-- English --"; "translations.json file exists"], true);
      (["-- English --"; "motivation.json file exists"], true);
      (["-- English --"; "intro.json file exists"], true);
      (["-- English --"; "meta-tags.json file exists"], true);
      (["-- English --"; "links.json file exists"], true);
      (["-- English --"; "has an entry in the langDisplayNames enum"], false);
      (["-- English --"; "has an entry in the langCodes enum"], false) ].
Proof.
  split; [| split; [| split; [| split]]].
  - intros file [<- | [<- | [<- | [<- | [<- | []]]]]];
      apply (bool_decide_unpack _); vm_compute; exact I.
  - exists "English". split; [simpl; tauto | reflexivity].
  - exists "English". split; [simpl; tauto | reflexivity].
  - vm_compute. reflexivity.
  - vm_compute. reflexivity.
Qed.

End LocaleFacts.

(** ** [annotateCode] and [stringifyMd] *)

Module FormatterFacts.
Import Formatter.

Lemma Node_forall_ind (P : Node -> Prop) :
  (forall ty v cs, Forall P cs -> P (mkNode ty v cs)) ->
  forall n, P n.
Proof.
  intros H. fix IH 1. intros [ty v cs]. apply H.
  induction cs as [|c cs IHcs]; constructor; [apply IH | exact IHcs].
Qed.

Section Library.

Variable Context : Type.
Variable start : bool -> string -> Context.
Variable parse : list SyntaxPlugin -> string -> Node.
Variable inlineCode : Handler Context.
Variable defaultHandlers : string -> Handler Context.
Variable extensionHandlers : SyntaxPlugin -> list (string * Handler Context).

Local Abbreviation plugins := [remarkParse; tableAndStrikethrough].
Local Abbreviation annotate := (annotate_options inlineCode).
Local Abbreviation plain := (@stringify_options Context).
Local Abbreviation handler_of :=
  (handler_for inlineCode defaultHandlers extensionHandlers plugins).
Local Abbreviation render :=
  (toMarkdown inlineCode defaultHandlers extensionHandlers plugins).

Lemma handler_for_other (ty : string) :
  ty <> "inlineCode" -> handler_of annotate ty = handler_of plain ty.
Proof.
  intros Hty. unfold handler_for. simpl.
  apply String.eqb_neq in Hty. now rewrite Hty.
Qed.

Lemma toMarkdown_without_inlineCode (tree : Node) :
  has_inlineCode tree = false -> render annotate tree = render plain tree.
Proof.
  induction tree as [ty v cs IH] using Node_forall_ind.
  cbn [has_inlineCode]. intros H.
  apply orb_false_iff in H. destruct H as [Hty Hcs].
  assert (Hkids : map (render annotate) cs = map (render plain) cs).
  { induction IH as [|c cs Hc _ IHcs]; [reflexivity |].
    simpl in Hcs. apply orb_false_iff in Hcs. destruct Hcs as [Hc' Hcs'].
    cbn [map]. f_equal; auto. }
  cbn [toMarkdown]. rewrite Hkids.
  rewrite handler_for_other by (now apply String.eqb_neq).
  reflexivity.
Qed.

(** C7: [annotateCode] and [stringifyMd] run the same plugins (remark-parse,
    then table-and-strikethrough) and the same stringify settings ([fences:
    true], [emphasis: '*']); the only handler that differs is the one for
    [inlineCode], which in [annotateCode] is the library's own [inlineCode]
    between [<notranslate>] and [</notranslate>], whatever the plugins
    register; every other node type gets the same handler in both, so a
    tree without inline code is rendered identically.  ([stringifyMd]
    itself renders inline code with the handler of a plugin when a plugin
    registers one, and with the library's otherwise.) *)
Theorem annotateCode_wraps_inlineCode :
  syntax (annotate_processor inlineCode) = syntax (@stringify_processor Context) /\
  syntax (@stringify_processor Context) = [remarkParse; tableAndStrikethrough] /\
  (fences annotate, emphasis annotate) = (true, "*") /\
  (fences plain, emphasis plain) = (true, "*") /\
  (forall md,
     annotateCode start parse inlineCode defaultHandlers extensionHandlers md =
       Some (render annotate (parse [remarkParse; tableAndStrikethrough] md)
               (start true "*"))) /\
  (forall nodes,
     stringifyMd start inlineCode defaultHandlers extensionHandlers nodes =
       Some (render plain (root nodes) (start true "*"))) /\
  (forall ty, ty <> "inlineCode" -> handler_of annotate ty = handler_of plain ty) /\
  (forall node context kids,
     handler_of annotate "inlineCode" node context kids =
       "<notranslate>" +:+ inlineCode node context kids +:+ "</notranslate>") /\
  (forall v cs context,
     render annotate (mkNode "inlineCode" v cs) context =
       "<notranslate>" +:+
       inlineCode (mkNode "inlineCode" v cs) context (map (render annotate) cs) +:+
       "</notranslate>") /\
  (forall tree, has_inlineCode tree = false ->
     forall context, render annotate tree context = render plain tree context) /\
  handler_of plain "inlineCode" =
    match extension_handler extensionHandlers plugins "inlineCode" with
    | Some h => h
    | None => inlineCode
    end.
Proof.
  repeat split.
  - exact handler_for_other.
  - intros tree H context. now rewrite toMarkdown_without_inlineCode.
Qed.

End Library.

Lemma annotateCode_wraps_inlineCode_witness :
  handler_for Sample.md_inlineCode Sample.md_defaults Sample.md_extensions
    [remarkParse; tableAndStrikethrough] (annotate_options Sample.md_inlineCode) "text" =
  handler_for Sample.md_inlineCode Sample.md_defaults Sample.md_extensions
    [remarkParse; tableAndStrikethrough] stringify_options "text" /\
  toMarkdown Sample.md_inlineCode Sample.md_defaults Sample.md_extensions
    [remarkParse; tableAndStrikethrough] (annotate_options Sample.md_inlineCode)
    (mkNode "paragraph" "" [mkNode "text" "plain words" []]) [] =
  toMarkdown Sample.md_inlineCode Sample.md_defaults Sample.md_extensions
    [remarkParse; tableAndStrikethrough] stringify_options
    (mkNode "paragraph" "" [mkNode "text" "plain words" []]) [].
Proof.
  pose proof (annotateCode_wraps_inlineCode (list string) Sample.md_start Sample.md_parse
                Sample.md_inlineCode Sample.md_defaults Sample.md_extensions)
    as (_ & _ & _ & _ & _ & _ & Hother & _ & _ & Htree & _).
  split.
  - apply Hother. discriminate.
  - apply Htree. reflexivity.
Defined.

(** On the sample library, inline code is wrapped and the rest is not. *)
Example annotateCode_sample :
  annotateCode Sample.md_start
    (fun _ _ => root [mkNode "text" "Use " []; mkNode "inlineCode" "let" []])
    Sample.md_inlineCode Sample.md_defaults Sample.md_extensions "Use `let`" =
  Some "Use <notranslate>`let`</notranslate>".
Proof. reflexivity. Qed.

(** With a table plugin that brings its own [inlineCode] handler, inline code
    in a table cell comes out of [stringifyMd] with its pipe escaped, and
    out of [annotateCode]'s compiler as the library renders it, between the
    tags. *)
Example inline_code_in_a_table_cell :
  let cell := mkNode "tableCell" "" [mkNode "inlineCode" "a|b" []] in
  toMarkdown Sample.md_inlineCode Sample.md_defaults Sample.md_extensions
    [remarkParse; tableAndStrikethrough] (annotate_options Sample.md_inlineCode)
    cell [] = "<notranslate>`a|b`</notranslate>" /\
  toMarkdown Sample.md_inlineCode Sample.md_defaults Sample.md_extensions
    [remarkParse; tableAndStrikethrough] stringify_options cell [] = "`a\|b`".
Proof. split; reflexivity. Qed.

End FormatterFacts.

(** * Further properties *)

(** ** What a request can do to the store and the log *)

Lemma apply_data_frame (data : Payload) (u : Doc) (field : string) :
  ~ In field (map fst data) -> apply_data data u !! field = u !! field.
Proof.
  unfold apply_data. revert u.
  induction data as [|[k v] data IH]; intros u Hnot; simpl; [reflexivity |].
  simpl in Hnot. rewrite IH by tauto.
  destruct v; try reflexivity; apply lookup_insert_ne; tauto.
Qed.

Lemma apply_data_lookup (data : Payload) (u : Doc) (field : string) :
  apply_data data u !! field = u !! field \/
  exists v, In (field, v) data /\ apply_data data u !! field = Some v.
Proof.
  unfold apply_data. revert u.
  induction data as [|[k v] data IH]; intros u; simpl; [left; reflexivity |].
  match goal with
  | |- context [fold_left ?f data ?u1] => destruct (IH u1) as [Heq | (v' & Hin & Heq)]
  end.
  - rewrite Heq. destruct (decide (k = field)) as [-> | Hne].
    + destruct v; try (left; reflexivity); right; eexists; (split; [left; reflexivity |]);
        apply lookup_insert_eq.
    + left. destruct v; try reflexivity; now apply lookup_insert_ne.
  - right. exists v'. split; [right; assumption | exact Heq].
Qed.

Section Effects.

Variable toLowerCase : string -> string.
Variable trim : string -> string.
Variable isProfane : string -> bool.
Variable isValidUsername : string -> Validated.
Variable blocklistedUsernames : list string.
Variable urlProtocol : string -> option string.
Variable formatDateTime : option Z -> Z -> string.

Local Abbreviation routes :=
  (settingRoutes toLowerCase trim isProfane isValidUsername blocklistedUsernames
     urlProtocol formatDateTime).

Local Opaque apply_data.

Ltac no_such_call :=
  let H := fresh in
  intros H; simpl in H;
  repeat (destruct H as [H | H]; [discriminate H |]); contradiction.

Ltac mode_quiet :=
  left; split; [reflexivity |]; split; [reflexivity |];
  split; [let e := fresh in intros e; no_such_call |];
  first [ left; eexists; split; reflexivity
        | right; left; do 2 eexists; split; [reflexivity |]; split;
          [reflexivity | first [left; reflexivity | right; reflexivity]]
        | right; right; split; reflexivity ].

Ltac mode_write :=
  right; left; do 3 eexists;
  split; [reflexivity |]; split; [reflexivity |]; split; [reflexivity |];
  split; [simpl; auto 6 |];
  split; [reflexivity |]; split; [reflexivity |];
  split; [repeat (apply List.Forall_cons; [in_list |]); apply List.Forall_nil |];
  split; [discriminate |];
  let v := fresh in let H := fresh in
  intros v H; simpl in H;
  repeat (destruct H as [H | H]; [try discriminate H; try (injection H as <-; reflexivity) |]);
  try contradiction.

Ltac mode_caught :=
  right; right; eexists; split; [reflexivity |]; split; [reflexivity |];
  split; [no_such_call |];
  first [ left; reflexivity | right; split; reflexivity ].

(** What one request can do: nothing to the store and the error log; or
    one write to the caller's document, answered 200 [success]; or one
    logged error, answered 500. *)
Lemma dispatch_effects (r : Route) :
  In r routes ->
  forall uid (b : Body r) invalid w o w',
    dispatch r uid b invalid w = (o, w') ->
    (users w' = users w /\ errorLog w' = errorLog w /\
     (forall e, ~ In (Update, e) (new_calls w w')) /\
     ((exists e, o = DefaultErrorHandler 400 e /\ url r = "/update-my-about") \/
      (exists payload t,
         o = Sent 400 payload /\ get_field "type" payload = Some (VStr t) /\
         (t = "danger" \/ t = "info")) \/
      (o = Sent 200 [("message", VStr "flash.email-valid"); ("type", VStr "success")] /\
       url r = "/update-my-email"))) \/
    (exists u data payload,
       users w !! uid = Some u /\
       users w' = <[uid := apply_data data u]> (users w) /\
       errorLog w' = errorLog w /\
       In (Update, None) (new_calls w w') /\
       o = Sent 200 payload /\
       get_field "type" payload = Some (VStr "success") /\
       Forall (fun kv => In kv.1 (fields_written (url r))) data /\
       url r <> "/update-my-email" /\
       (forall v, In ("acceptedPrivacyTerms", v) data -> v = VBool true)) \/
    (exists e,
       users w' = users w /\ errorLog w' = errorLog w ++ [e] /\
       ~ In (Update, None) (new_calls w w') /\
       (o = Sent 500 [("message", VStr "flash.wrong-updating"); ("type", VStr "danger")] \/
        (o = DefaultErrorHandler 500 e /\ url r = "/update-my-email"))).
Proof.
  intros Hr uid b invalid w o w'.
  each_route Hr; open_request uid b invalid w; destruct invalid; reduce;
    unfold_orm; reduce; run_cases;
    (let Hrun := fresh in intros Hrun; injection Hrun as ? ?; subst);
    simplify_eq; trace_simpl;
    lazymatch goal with
    | |- (<[_ := _]> _ = _ /\ _) \/ _ => mode_write
    | |- (_ /\ _ ++ _ = _ /\ _) \/ _ => mode_caught
    | |- _ => mode_quiet
    end.
Qed.

Local Transparent apply_data.

(** X1: whatever the route and the request, the documents of all users
    other than the session user are left as they were, and no user is
    created or deleted. *)
Theorem routes_touch_only_the_caller (r : Route) :
  In r routes ->
  forall uid (b : Body r) invalid w,
    let w' := (dispatch r uid b invalid w).2 in
    (forall id, id <> uid -> users w' !! id = users w !! id) /\
    dom (users w') = dom (users w).
Proof.
  intros Hr uid b invalid w w'.
  destruct (dispatch r uid b invalid w) as [o w1] eqn:E. subst w'. simpl.
  destruct (dispatch_effects r Hr uid b invalid w o w1 E)
    as [(Hu & _) | [(u & data & p & Hlook & Hu & _) | (e & Hu & _)]];
    rewrite Hu; try (split; reflexivity).
  split.
  - intros id Hne. now apply lookup_insert_ne.
  - apply dom_insert_lookup_L. rewrite Hlook. eauto.
Qed.

(** X2: a route changes no field of the session user's document outside
    the keys of its own [data] object ([fields_written]). *)
Theorem routes_write_only_their_fields (r : Route) :
  In r routes ->
  forall uid (b : Body r) invalid w u,
    users w !! uid = Some u ->
    exists u',
      users (dispatch r uid b invalid w).2 !! uid = Some u' /\
      forall field, ~ In field (fields_written (url r)) -> u' !! field = u !! field.
Proof.
  intros Hr uid b invalid w u Hlook.
  destruct (dispatch r uid b invalid w) as [o w1] eqn:E. simpl.
  destruct (dispatch_effects r Hr uid b invalid w o w1 E)
    as [(Hu & _)
       | [(u0 & data & p & Hlook' & Hu & _ & _ & _ & _ & Hfields & _) | (e & Hu & _)]];
    rewrite Hu; try (exists u; split; [assumption | reflexivity]).
  assert (u0 = u) as -> by congruence.
  exists (apply_data data u). split; [apply lookup_insert_eq |].
  intros field Hnot. apply apply_data_frame.
  intros Hin. apply Hnot. apply in_map_iff in Hin. destruct Hin as ([k v] & <- & Hin).
  rewrite Forall_forall in Hfields. apply (Hfields (k, v)).
  now apply list_elem_of_In.
Qed.

(** X3: the user collection changes only together with a 200 reply of
    type [success], and then nothing is logged. *)
Theorem routes_write_only_with_success (r : Route) :
  In r routes ->
  forall uid (b : Body r) invalid w o w',
    dispatch r uid b invalid w = (o, w') ->
    users w' <> users w ->
    exists payload,
      o = Sent 200 payload /\ get_field "type" payload = Some (VStr "success") /\
      errorLog w' = errorLog w.
Proof.
  intros Hr uid b invalid w o w' E Hchanged.
  destruct (dispatch_effects r Hr uid b invalid w o w' E)
    as [(Hu & _) | [(u & data & p & _ & _ & Hlog & _ & Ho & Hty & _) | (e & Hu & _)]];
    try contradiction.
  exists p. auto.
Qed.


(** X5: status and flash type agree on every reply the plugin sends:
    [success] comes with 200 and 200 with [success], [danger] with 400 or
    500, [info] with 400. *)
Theorem routes_status_matches_type (r : Route) :
  In r routes ->
  forall uid (b : Body r) invalid w status payload w',
    dispatch r uid b invalid w = (Sent status payload, w') ->
    exists t,
      get_field "type" payload = Some (VStr t) /\
      ((status = 200%nat /\ t = "success") \/
       (status = 400%nat /\ (t = "danger" \/ t = "info")) \/
       (status = 500%nat /\ t = "danger")).
Proof.
  intros Hr uid b invalid w status payload w' E.
  destruct (dispatch_effects r Hr uid b invalid w _ w' E)
    as [(_ & _ & _ & [(e & He & _) | [(p & t & He & Hty & Ht) | (He & _)]])
       | [(u & data & p & _ & _ & _ & _ & He & Hty & _)
         | (e & _ & _ & _ & [He | [He _]])]];
    try discriminate He; injection He as -> ->.
  - exists t. auto.
  - exists "success". auto.
  - exists "success". auto.
  - exists "danger". split; [reflexivity |]. auto 10.
Qed.

(** X6: no settings route takes back an accepted privacy policy: a user
    whose [acceptedPrivacyTerms] is [true] keeps it through every request. *)
Theorem acceptedPrivacyTerms_is_never_reset (r : Route) :
  In r routes ->
  forall uid (b : Body r) invalid w id u,
    users w !! id = Some u ->
    u !! "acceptedPrivacyTerms" = Some (VBool true) ->
    exists u',
      users (dispatch r uid b invalid w).2 !! id = Some u' /\
      u' !! "acceptedPrivacyTerms" = Some (VBool true).
Proof.
  intros Hr uid b invalid w id u Hlook Hterms.
  destruct (dispatch r uid b invalid w) as [o w1] eqn:E. simpl.
  destruct (dispatch_effects r Hr uid b invalid w o w1 E)
    as [(Hu & _)
       | [(u0 & data & p & Hlook' & Hu & _ & _ & _ & _ & _ & _ & Hval) | (e & Hu & _)]];
    rewrite Hu; try (exists u; split; assumption).
  destruct (decide (uid = id)) as [-> | Hne].
  - assert (u0 = u) as -> by congruence.
    exists (apply_data data u). split; [apply lookup_insert_eq |].
    destruct (apply_data_lookup data u "acceptedPrivacyTerms") as [-> | (v & Hin & ->)];
      [assumption |].
    f_equal. now apply Hval.
  - exists u. split; [now rewrite lookup_insert_ne | assumption].
Qed.

(** X7: an [update] that returned is always reported as 200 with type
    [success]; and on every route but [/update-my-email] a 200 [success]
    is only ever reported after the [update] returned. *)
Theorem routes_report_success_iff_updated (r : Route) :
  In r routes ->
  forall uid (b : Body r) invalid w o w',
    dispatch r uid b invalid w = (o, w') ->
    (In (Update, None) (new_calls w w') ->
     exists payload,
       o = Sent 200 payload /\ get_field "type" payload = Some (VStr "success")) /\
    (url r <> "/update-my-email" ->
     (exists payload,
        o = Sent 200 payload /\ get_field "type" payload = Some (VStr "success")) ->
     In (Update, None) (new_calls w w')).
Proof.
  intros Hr uid b invalid w o w' E.
  destruct (dispatch_effects r Hr uid b invalid w o w' E)
    as [(_ & _ & Hnone & [(e & -> & _) | [(p & t & -> & _) | (-> & Hurl)]])
       | [(u & data & p & _ & _ & _ & Hin & -> & Hty & _)
         | (e & _ & _ & Hnone & [-> | [-> _]])]].
  - split; [intros H; now apply Hnone in H | intros _ (p & H & _); discriminate H].
  - split; [intros H; now apply Hnone in H | intros _ (p' & H & _); discriminate H].
  - split; [intros H; now apply Hnone in H | intros Hne; contradiction].
  - split; [intros _; eauto | intros _ _; exact Hin].
  - split; [intros H; contradiction | intros _ (p & H & _); discriminate H].
  - split; [intros H; contradiction | intros _ (p & H & _); discriminate H].
Qed.

End Effects.

Lemma routes_touch_only_the_caller_witness :
  (forall id, id <> "u1" ->
     users (dispatch put_update_my_theme "u1" {| schemas.theme := "night" |} None
              Sample.world).2 !! id = users Sample.world !! id) /\
  dom (users (dispatch put_update_my_theme "u1" {| schemas.theme := "night" |} None
                Sample.world).2) = dom (users Sample.world).
Proof.
  apply (routes_touch_only_the_caller toLowerCase trim Sample.isProfane
           Sample.isValidUsername Sample.blocklistedUsernames Sample.urlProtocol
           Sample.formatDateTime put_update_my_theme).
  do 2 right. left. reflexivity.
Defined.

Lemma routes_write_only_their_fields_witness :
  exists u',
    users (dispatch put_update_my_theme "u1" {| schemas.theme := "night" |} None
             Sample.world).2 !! "u1" = Some u' /\
    forall field, ~ In field (fields_written (url put_update_my_theme)) ->
      u' !! field = Sample.camper !! field.
Proof.
  apply (routes_write_only_their_fields toLowerCase trim Sample.isProfane
           Sample.isValidUsername Sample.blocklistedUsernames Sample.urlProtocol
           Sample.formatDateTime put_update_my_theme).
  - do 2 right. left. reflexivity.
  - vm_compute. reflexivity.
Defined.

Lemma routes_write_only_with_success_witness :
  exists payload,
    (dispatch put_update_my_theme "u1" {| schemas.theme := "night" |} None
       Sample.world).1 = Sent 200 payload /\
    get_field "type" payload = Some (VStr "success") /\
    errorLog (dispatch put_update_my_theme "u1" {| schemas.theme := "night" |} None
                Sample.world).2 = errorLog Sample.world.
Proof.
  apply (routes_write_only_with_success toLowerCase trim Sample.isProfane
           Sample.isValidUsername Sample.blocklistedUsernames Sample.urlProtocol
           Sample.formatDateTime put_update_my_theme) with
    (uid := "u1") (b := {| schemas.theme := "night" |}) (invalid := None)
    (w := Sample.world).
  - do 2 right. left. reflexivity.
  - apply surjective_pairing.
  - intros H.
    apply (f_equal (fun us => us !! "u1" ≫= fun u => u !! "theme")) in H.
    vm_compute in H. discriminate H.
Defined.


Lemma routes_status_matches_type_witness :
  exists t,
    get_field "type"
      [("message", VStr (same_email_message "camper@example.com"));
       ("type", VStr "info")] = Some (VStr t) /\
    ((400%nat = 200%nat /\ t = "success") \/
     (400%nat = 400%nat /\ (t = "danger" \/ t = "info")) \/
     (400%nat = 500%nat /\ t = "danger")).
Proof.
  apply (routes_status_matches_type toLowerCase trim Sample.isProfane
           Sample.isValidUsername Sample.blocklistedUsernames Sample.urlProtocol
           Sample.formatDateTime Sample.put_email) with
    (uid := "u1") (b := {| schemas.email := "Camper@Example.COM" |}) (invalid := None)
    (w := Sample.world)
    (w' := (dispatch Sample.put_email "u1"
              {| schemas.email := "Camper@Example.COM" |} None Sample.world).2).
  - right. left. reflexivity.
  - vm_compute. reflexivity.
Defined.

Lemma acceptedPrivacyTerms_is_never_reset_witness :
  exists u',
    users (dispatch put_update_my_quincy_email "u1"
             {| schemas.sendQuincyEmail := false |} None Fixtures.world_agreed).2
      !! "u1" = Some u' /\
    u' !! "acceptedPrivacyTerms" = Some (VBool true).
Proof.
  apply (acceptedPrivacyTerms_is_never_reset toLowerCase trim Sample.isProfane
           Sample.isValidUsername Sample.blocklistedUsernames Sample.urlProtocol
           Sample.formatDateTime put_update_my_quincy_email) with (u := Fixtures.agreed).
  - do 7 right. left. reflexivity.
  - vm_compute. reflexivity.
  - vm_compute. reflexivity.
Defined.

Lemma routes_report_success_iff_updated_witness :
  exists payload,
    (dispatch put_update_my_theme "u1" {| schemas.theme := "night" |} None
       Sample.world).1 = Sent 200 payload /\
    get_field "type" payload = Some (VStr "success").
Proof.
  apply (proj1 (routes_report_success_iff_updated toLowerCase trim Sample.isProfane
                  Sample.isValidUsername Sample.blocklistedUsernames Sample.urlProtocol
                  Sample.formatDateTime put_update_my_theme
                  ltac:(do 2 right; left; reflexivity)
                  "u1" {| schemas.theme := "night" |} None Sample.world _ _
                  (surjective_pairing _))).
  vm_compute. left. reflexivity.
Defined.

(** ** [/update-my-email], the rest *)

(** X8: [/update-my-email] never writes.  Its update sits behind
    [!isPast(fiveMinuteLimit)], and [fiveMinuteLimit] is declared but never
    assigned, so that a new address always gets the handler's 'We have
    already sent an email confirmation request' payload at status 200, after
    a single [findUniqueOrThrow]; and what leaves the server for it is
    ['flash.email-valid' / 'success'], because both properties of the
    route's 200 response schema are literals. *)
Theorem update_my_email_unset_limit (toLowerCase : string -> string)
    (formatDateTime : option Z -> Z -> string) (uid email : string) (w : World) :
  (forall invalid,
     users (dispatch (put_update_my_email toLowerCase formatDateTime) uid
              {| schemas.email := email |} invalid w).2 = users w) /\
  (forall u stored,
     users w !! uid = Some u ->
     u !! "email" = Some (VStr stored) ->
     hd None (faults w) = None ->
     toLowerCase email <> toLowerCase stored ->
     (exists w1,
        update_my_email toLowerCase formatDateTime
          (mkRequest uid {| schemas.email := email |} None) (set_status 200 w) =
          (inr [("type", VStr "info");
                ("message",
                 VStr (already_sent_message (toLowerCase email)
                         (formatDateTime None (now w))))], w1) /\
        statusCode w1 = 200%nat) /\
     exists w',
       dispatch (put_update_my_email toLowerCase formatDateTime) uid
         {| schemas.email := email |} None w =
         (Sent 200 [("message", VStr "flash.email-valid"); ("type", VStr "success")],
          w') /\
       new_calls w w' = [(FindUniqueOrThrow, None)]).
Proof.
  split.
  - intros invalid. apply update_my_email_never_writes.
  - intros u stored Hu He Hf Hdiff. split.
    + destruct w as [us fs calls log ilog st nw]. simpl in Hu, Hf.
      unfold_handlers. unfold_orm. reduce.
      assert (Hsel : select_fields (Some ["email"]) u !! "email" = Some (VStr stored))
        by (rewrite select_fields_lookup; [assumption | simpl; auto]).
      apply String.eqb_neq in Hdiff.
      destruct fs as [|[e|] fs]; try discriminate Hf; reduce;
        rewrite Hu; reduce; rewrite Hsel; reduce; rewrite Hdiff; reduce;
        (eexists; split; reflexivity).
    + destruct (update_my_email_new_address toLowerCase formatDateTime uid email stored
                  w u Hu He Hf Hdiff) as (w' & Hrun & _ & Hcalls).
      eauto.
Qed.

(** X22: [/update-my-email] compares the submitted and the stored address
    after lowercasing both: when they are equal the request is refused with
    400 and an [info] flash that quotes the lowercased address, after a
    single read and without a write. *)
Theorem update_my_email_same_address_is_refused (toLowerCase : string -> string)
    (formatDateTime : option Z -> Z -> string)
    (uid email stored : string) (w : World) (u : Doc) :
  users w !! uid = Some u ->
  u !! "email" = Some (VStr stored) ->
  hd None (faults w) = None ->
  toLowerCase email = toLowerCase stored ->
  exists w',
    dispatch (put_update_my_email toLowerCase formatDateTime) uid
      {| schemas.email := email |} None w =
      (Sent 400 [("message", VStr (same_email_message (toLowerCase email)));
                 ("type", VStr "info")], w') /\
    users w' = users w /\
    new_calls w w' = [(FindUniqueOrThrow, None)].
Proof. apply update_my_email_same. Qed.

(** ** [/update-my-portfolio] *)

Lemma or_empty_default (x : option string) : or_empty x = default "" x.
Proof.
  destruct x as [s|]; [| reflexivity]. simpl.
  destruct (String.eqb s "") eqn:E; simpl; [| reflexivity].
  apply String.eqb_eq in E. now subst.
Qed.

(** X9: a successful [/update-my-portfolio] stores one object for each
    submitted item, in order, each with the five keys [id], [title], [url],
    [description], [image] holding the submitted string, or the empty string
    where the item had none; no other field changes. *)
Theorem portfolio_is_stored_complete
    (uid : string) (items : list schemas.PortfolioItem) (w : World) (u : Doc) :
  users w !! uid = Some u ->
  hd None (faults w) = None ->
  exists w' u',
    dispatch put_update_my_portfolio uid {| schemas.portfolio := items |} None w =
      (Sent 200 [("message", VStr "flash.portfolio-item-updated");
                 ("type", VStr "success")], w') /\
    users w' !! uid = Some u' /\
    u' !! "portfolio" =
      Some (VArr (map (fun item =>
                         VObj [("id", VStr (default "" (schemas.id item)));
                               ("title", VStr (default "" (schemas.title item)));
                               ("url", VStr (default "" (schemas.url item)));
                               ("description", VStr (default "" (schemas.description item)));
                               ("image", VStr (default "" (schemas.image item)))])
                      items)) /\
    (forall field, field <> "portfolio" -> u' !! field = u !! field).
Proof.
  intros Hu Hf.
  destruct (prisma_user_update_ok uid
              [("portfolio", VArr (map portfolio_item items))]
              (set_status 200 w) u Hf Hu)
    as (w' & Hrun & Husers & _ & _ & Hst & _).
  rewrite apply_data_single in Husers by discriminate.
  exists w', (<["portfolio" := VArr (map portfolio_item items)]> u).
  split; [| split; [| split]].
  - unfold dispatch, run_handler; simpl.
    unfold update_my_portfolio, try_catch, bind; simpl.
    rewrite Hrun. simpl. now rewrite Hst.
  - rewrite Husers. apply lookup_insert_eq.
  - rewrite lookup_insert_eq. do 2 f_equal.
    apply map_ext. intros item. unfold portfolio_item.
    now rewrite !or_empty_default.
  - intros field Hne. now apply lookup_insert_ne.
Qed.

(** ** [/update-my-about] with a usable picture *)

(** X10: a non-empty picture whose URL parses with protocol [http:] or
    [https:] is stored as submitted, together with [about], [name] and
    [location]; no other field changes. *)
Theorem about_stores_usable_picture (urlProtocol : string -> option string)
    uid about name location p protocol w u :
  p <> "" ->
  urlProtocol p = Some protocol ->
  protocol = "http:" \/ protocol = "https:" ->
  users w !! uid = Some u ->
  hd None (faults w) = None ->
  exists w' u',
    dispatch (put_update_my_about urlProtocol) uid
      {| schemas.about := about; schemas.name := name;
         schemas.location := location; schemas.picture := Some p |} None w =
      (Sent 200 [("message", VStr "flash.updated-about-me"); ("type", VStr "success")],
       w') /\
    users w' !! uid = Some u' /\
    u' !! "about" = Some (VStr about) /\
    u' !! "name" = Some (VStr name) /\
    u' !! "location" = Some (VStr location) /\
    u' !! "picture" = Some (VStr p) /\
    (forall field,
       field <> "about" -> field <> "name" -> field <> "location" ->
       field <> "picture" -> u' !! field = u !! field).
Proof.
  intros Hp Hurl Hproto Hu Hf.
  assert (Hpic : isPictureWithProtocol urlProtocol (Some p) = true).
  { unfold isPictureWithProtocol. simpl.
    apply String.eqb_neq in Hp. rewrite Hp. simpl. rewrite Hurl.
    apply orb_true_iff. destruct Hproto as [-> | ->]; [left | right];
      apply String.eqb_refl. }
  destruct (prisma_user_update_ok uid
              [("about", VStr about); ("name", VStr name); ("location", VStr location);
               ("picture", VStr p)]
              (set_status 200 w) u Hf Hu)
    as (w' & Hrun & Husers & _ & _ & Hst & _).
  exists w', (<["picture" := VStr p]> (<["location" := VStr location]>
                (<["name" := VStr name]> (<["about" := VStr about]> u)))).
  split.
  - unfold dispatch, run_handler, put_update_my_about, update_my_about, try_catch, bind.
    cbn -[isPictureWithProtocol prisma_user_update set_status].
    rewrite Hpic. cbn -[prisma_user_update set_status].
    rewrite Hrun. simpl. now rewrite Hst.
  - rewrite Husers. simpl. repeat split.
    + apply lookup_insert_eq.
    + now rewrite 3!lookup_insert_ne, lookup_insert_eq.
    + now rewrite 2!lookup_insert_ne, lookup_insert_eq.
    + now rewrite lookup_insert_ne, lookup_insert_eq.
    + apply lookup_insert_eq.
    + intros field H1 H2 H3 H4. now rewrite 4!lookup_insert_ne.
Qed.

Lemma update_my_email_unset_limit_witness :
  exists w',
    dispatch Sample.put_email "u1" {| schemas.email := "New@Example.com" |} None
      Sample.world =
      (Sent 200 [("message", VStr "flash.email-valid"); ("type", VStr "success")], w') /\
    new_calls Sample.world w' = [(FindUniqueOrThrow, None)].
Proof.
  apply (proj2 (update_my_email_unset_limit toLowerCase Sample.formatDateTime "u1"
                  "New@Example.com" Sample.world)
           Sample.camper "camper@example.com").
  - vm_compute. reflexivity.
  - vm_compute. reflexivity.
  - reflexivity.
  - vm_compute. discriminate.
Defined.

Lemma update_my_email_same_address_is_refused_witness :
  exists w',
    dispatch Sample.put_email "u1" {| schemas.email := "Camper@Example.COM" |} None
      Sample.world =
      (Sent 400 [("message", VStr (same_email_message "camper@example.com"));
                 ("type", VStr "info")], w') /\
    users w' = users Sample.world /\
    new_calls Sample.world w' = [(FindUniqueOrThrow, None)].
Proof.
  apply (update_my_email_same_address_is_refused toLowerCase Sample.formatDateTime "u1"
           "Camper@Example.COM" "camper@example.com" Sample.world Sample.camper).
  - vm_compute. reflexivity.
  - vm_compute. reflexivity.
  - reflexivity.
  - reflexivity.
Defined.

Lemma portfolio_is_stored_complete_witness :
  exists w' u',
    dispatch put_update_my_portfolio "u1" {| schemas.portfolio := [Fixtures.item] |}
      None Sample.world =
      (Sent 200 [("message", VStr "flash.portfolio-item-updated");
                 ("type", VStr "success")], w') /\
    users w' !! "u1" = Some u' /\
    u' !! "portfolio" =
      Some (VArr [VObj [("id", VStr "p1"); ("title", VStr "Tribute page");
                        ("url", VStr ""); ("description", VStr "");
                        ("image", VStr "https://example.com/shot.png")]]) /\
    (forall field, field <> "portfolio" -> u' !! field = Sample.camper !! field).
Proof.
  apply (portfolio_is_stored_complete "u1" [Fixtures.item] Sample.world Sample.camper).
  - vm_compute. reflexivity.
  - reflexivity.
Defined.

Lemma about_stores_usable_picture_witness :
  exists w' u',
    dispatch Sample.put_about "u1"
      {| schemas.about := "I like to code"; schemas.name := "Camper Bot";
         schemas.location := "Earth";
         schemas.picture := Some "https://example.com/me.png" |} None Sample.world =
      (Sent 200 [("message", VStr "flash.updated-about-me"); ("type", VStr "success")],
       w') /\
    users w' !! "u1" = Some u' /\
    u' !! "about" = Some (VStr "I like to code") /\
    u' !! "name" = Some (VStr "Camper Bot") /\
    u' !! "location" = Some (VStr "Earth") /\
    u' !! "picture" = Some (VStr "https://example.com/me.png") /\
    (forall field,
       field <> "about" -> field <> "name" -> field <> "location" ->
       field <> "picture" -> u' !! field = Sample.camper !! field).
Proof.
  apply (about_stores_usable_picture Sample.urlProtocol "u1" "I like to code"
           "Camper Bot" "Earth" "https://example.com/me.png" "https:" Sample.world
           Sample.camper).
  - discriminate.
  - reflexivity.
  - right. reflexivity.
  - vm_compute. reflexivity.
  - reflexivity.
Defined.

(** ** [/update-my-username], the rest *)

Section UsernameMore.

Variable toLowerCase : string -> string.
Variable trim : string -> string.
Variable isProfane : string -> bool.
Variable isValidUsername : string -> Validated.
Variable blocklistedUsernames : list string.

Local Abbreviation put_username :=
  (put_update_my_username toLowerCase trim isProfane isValidUsername
     blocklistedUsernames).

Lemma no_faults_three (fs : list (option string)) :
  Forall (fun f => f = None) fs ->
  hd None fs = None /\ hd None (tl fs) = None /\ hd None (tl (tl fs)) = None.
Proof.
  intros H. destruct H as [|f fs -> H]; [repeat split |].
  destruct H as [|f' fs' -> H]; [repeat split |].
  destruct H as [|f'' fs'' -> H]; repeat split.
Qed.

Lemma update_my_username_unchanged uid name invalid w u stored display :
  users w !! uid = Some u ->
  u !! "username" = Some (VStr stored) ->
  u !! "usernameDisplay" = Some (VStr display) ->
  hd None (faults w) = None ->
  toLowerCase (trim name) = toLowerCase stored ->
  trim name = trim display ->
  exists w',
    dispatch put_username uid {| schemas.username := name |} invalid w =
      (Sent 400 [("message", VStr "flash.username-used"); ("type", VStr "info")], w') /\
    users w' = users w /\
    new_calls w w' = [(FindFirstOrThrow, None)].
Proof.
  intros Hu Hs Hd Hf Hlow Htrim.
  open_request uid b invalid w. simpl in Hu, Hf.
  unfold_orm. reduce. cbn [select_fields].
  destruct fs as [|[e|] fs]; try discriminate Hf; destruct invalid; reduce;
    rewrite Hu; reduce; rewrite Hd, Hs; reduce;
    rewrite Hlow, Htrim, !String.eqb_refl; reduce;
    (eexists; split; [reflexivity | split; [reflexivity | trace_simpl; reflexivity]]).
Qed.

Lemma update_my_username_renamed uid name w u stored display :
  users w !! uid = Some u ->
  u !! "username" = Some (VStr stored) ->
  u !! "usernameDisplay" = VStr <$> display ->
  no_faults w ->
  toLowerCase (trim name) <> toLowerCase stored \/ Some (trim name) <> (trim <$> display) ->
  valid (isValidUsername (toLowerCase (trim name))) = true ->
  isProfane (toLowerCase (trim name)) = false ->
  includes blocklistedUsernames (toLowerCase (trim name)) = false ->
  toLowerCase (trim name) = toLowerCase stored \/
    users_named (toLowerCase (trim name)) (users w) = 0%nat ->
  exists w',
    dispatch put_username uid {| schemas.username := name |} None w =
      (Sent 200 [("message", VStr "flash.username-updated"); ("type", VStr "success");
                 ("username", VStr (trim name))], w') /\
    users w' =
      <[uid := <["usernameDisplay" := VStr (trim name)]>
                 (<["username" := VStr (toLowerCase (trim name))]> u)]> (users w).
Proof.
  intros Hu Hs Hd Hf Hchanged Hvalid Hprofane Hblock Hfree.
  open_request uid b invalid w. unfold no_faults in Hf. simpl in Hu, Hf, Hfree.
  apply no_faults_three in Hf. destruct Hf as (Hf1 & Hf2 & Hf3).
  unfold_orm. reduce. cbn [select_fields].
  destruct fs as [|f1 fs]; simpl in Hf1, Hf2, Hf3; subst;
    [| destruct fs as [|f2 fs]; simpl in Hf2, Hf3; subst;
       [| destruct fs as [|f3 fs]; simpl in Hf3; subst ] ];
    reduce; rewrite Hu; reduce; rewrite Hd, Hs;
    destruct display as [d|]; reduce;
    rewrite Hvalid, Hprofane, Hblock; reduce;
    run_cases; simplify_eq; reduce;
    try (eexists; split; reflexivity);
    exfalso;
    repeat match goal with
      | H : (_ && _) = true |- _ => apply andb_true_iff in H; destruct H
      | H : (_ =? _)%string = true |- _ => apply String.eqb_eq in H
      | H : (_ =? _)%string = false |- _ => apply String.eqb_neq in H
      | H : (_ || _) = true |- _ => apply orb_true_iff in H; destruct H
      | H : negb (_ =? 0)%Z = true |- _ => apply negb_true_iff, Z.eqb_neq in H
      end;
    try discriminate;
    try (destruct Hchanged as [Hc | Hc]; [contradiction | apply Hc; simpl; congruence]);
    try (destruct Hfree as [Hc | Hc]; [contradiction | lia]).
Qed.


(** X11: submitting the name one already has (equal to the stored username
    after trimming and lowercasing, and to the stored display name after
    trimming both) is refused with 400 'flash.username-used', even for a
    body that failed validation; the record is read once and not written. *)
Theorem username_unchanged_is_refused uid name invalid w u stored display :
  users w !! uid = Some u ->
  u !! "username" = Some (VStr stored) ->
  u !! "usernameDisplay" = Some (VStr display) ->
  hd None (faults w) = None ->
  toLowerCase (trim name) = toLowerCase stored ->
  trim name = trim display ->
  exists w',
    dispatch put_username uid {| schemas.username := name |} invalid w =
      (Sent 400 [("message", VStr "flash.username-used"); ("type", VStr "info")], w') /\
    users w' = users w /\
    new_calls w w' = [(FindFirstOrThrow, None)].
Proof. apply update_my_username_unchanged. Qed.

(** X12: a changed name that passes [isValidUsername], is neither profane
    nor blocklisted and is carried by no stored user (or differs from the
    current one in letter case only) is stored, lowercased and trimmed as
    [username] and trimmed as [usernameDisplay]; the 200 reply returns the
    trimmed name. *)
Theorem username_is_renamed uid name w u stored display :
  users w !! uid = Some u ->
  u !! "username" = Some (VStr stored) ->
  u !! "usernameDisplay" = VStr <$> display ->
  no_faults w ->
  toLowerCase (trim name) <> toLowerCase stored \/ Some (trim name) <> (trim <$> display) ->
  valid (isValidUsername (toLowerCase (trim name))) = true ->
  isProfane (toLowerCase (trim name)) = false ->
  includes blocklistedUsernames (toLowerCase (trim name)) = false ->
  toLowerCase (trim name) = toLowerCase stored \/
    users_named (toLowerCase (trim name)) (users w) = 0%nat ->
  exists w',
    dispatch put_username uid {| schemas.username := name |} None w =
      (Sent 200 [("message", VStr "flash.username-updated"); ("type", VStr "success");
                 ("username", VStr (trim name))], w') /\
    users w' =
      <[uid := <["usernameDisplay" := VStr (trim name)]>
                 (<["username" := VStr (toLowerCase (trim name))]> u)]> (users w).
Proof. apply update_my_username_renamed. Qed.

(** X13: [/update-my-username] queries [count] only when the lowercased
    trimmed new name differs from the lowercased stored username. *)
Theorem username_count_only_for_new_names (req : Request schemas.updateMyUsername)
    (w : World) :
  In Count
     (calls_during
        (update_my_username toLowerCase trim isProfane isValidUsername
           blocklistedUsernames req) w) ->
  exists u stored,
    users w !! session_user_id req = Some u /\
    u !! "username" = Some (VStr stored) /\
    toLowerCase (trim (schemas.username (body req))) <> toLowerCase stored.
Proof.
  open_handler req w; unfold calls_during, new_calls; reduce; cbn [select_fields];
    run_cases; trace_simpl; intros Hin;
    repeat (destruct Hin as [Hin | Hin]; try discriminate Hin); try contradiction;
    cbn [select_fields] in *;
    (do 2 eexists; split; [reflexivity |]; split; [eassumption |];
     now apply String.eqb_neq).
Qed.

End UsernameMore.

Lemma username_unchanged_is_refused_witness :
  exists w',
    dispatch Sample.put_username "u1" {| schemas.username := " Camper " |} None
      Sample.world =
      (Sent 400 [("message", VStr "flash.username-used"); ("type", VStr "info")], w') /\
    users w' = users Sample.world /\
    new_calls Sample.world w' = [(FindFirstOrThrow, None)].
Proof.
  apply (username_unchanged_is_refused toLowerCase trim Sample.isProfane
           Sample.isValidUsername Sample.blocklistedUsernames "u1" " Camper " None
           Sample.world Sample.camper "camper" "Camper").
  - vm_compute. reflexivity.
  - vm_compute. reflexivity.
  - vm_compute. reflexivity.
  - reflexivity.
  - reflexivity.
  - reflexivity.
Defined.

Lemma username_is_renamed_witness :
  exists w',
    dispatch Sample.put_username "u1" {| schemas.username := "  NewCamper " |} None
      Sample.world =
      (Sent 200 [("message", VStr "flash.username-updated"); ("type", VStr "success");
                 ("username", VStr (trim "  NewCamper "))], w') /\
    users w' =
      <["u1" := <["usernameDisplay" := VStr (trim "  NewCamper ")]>
                  (<["username" := VStr (toLowerCase (trim "  NewCamper "))]>
                     Sample.camper)]> (users Sample.world).
Proof.
  apply (username_is_renamed toLowerCase trim Sample.isProfane Sample.isValidUsername
           Sample.blocklistedUsernames "u1" "  NewCamper " Sample.world
           Sample.camper "camper" (Some "Camper")).
  - vm_compute. reflexivity.
  - vm_compute. reflexivity.
  - vm_compute. reflexivity.
  - unfold no_faults. simpl. constructor.
  - left. vm_compute. discriminate.
  - reflexivity.
  - reflexivity.
  - reflexivity.
  - right. vm_compute. reflexivity.
Defined.

Lemma username_count_only_for_new_names_witness :
  exists u stored,
    users Sample.world !! "u1" = Some u /\
    u !! "username" = Some (VStr stored) /\
    toLowerCase (trim "NewCamper") <> toLowerCase stored.
Proof.
  apply (username_count_only_for_new_names toLowerCase trim Sample.isProfane
           Sample.isValidUsername Sample.blocklistedUsernames
           (mkRequest "u1" {| schemas.username := "NewCamper" |} None) Sample.world).
  vm_compute. right. left. reflexivity.
Defined.

(** ** Repeating a request *)

Lemma trimEnd_idempotent (s : string) : trimEnd (trimEnd s) = trimEnd s.
Proof.
  induction s as [|c s IH]; [reflexivity |]. simpl.
  destruct (is_space c && String.eqb (trimEnd s) "") eqn:E; [reflexivity |].
  simpl. now rewrite IH, E.
Qed.

Lemma trimStart_no_space (s : string) :
  trimStart s = "" \/ exists c rest, trimStart s = String c rest /\ is_space c = false.
Proof.
  induction s as [|c s IH]; [left; reflexivity |]. simpl.
  destruct (is_space c) eqn:E; [exact IH |]. right. eauto.
Qed.

Lemma trim_idempotent (s : string) : trim (trim s) = trim s.
Proof.
  unfold trim. destruct (trimStart_no_space s) as [-> | (c & rest & -> & Hc)];
    [reflexivity |].
  simpl. rewrite Hc. simpl. rewrite Hc. simpl.
  now rewrite trimEnd_idempotent, Hc.
Qed.

Lemma get_field_app (k : string) (a b : Payload) :
  get_field k (a ++ b) =
  match get_field k a with Some v => Some v | None => get_field k b end.
Proof.
  induction a as [|[k' v'] a IH]; simpl; [reflexivity |].
  now destruct (String.eqb k k').
Qed.

(** The binding that wins in [data]: the last one of the key that is not
    [undefined]. *)
Lemma apply_data_lookup_last (data : Payload) (u : Doc) (field : string) :
  apply_data data u !! field =
  match
    get_field field
      (rev (List.filter (fun kv => match kv.2 with VUndefined => false | _ => true end)
              data))
  with
  | Some v => Some v
  | None => u !! field
  end.
Proof.
  unfold apply_data. revert u.
  induction data as [|[k v] data IH]; intros u; simpl; [reflexivity |].
  rewrite IH. clear IH.
  destruct v; simpl; try reflexivity;
    rewrite get_field_app; simpl;
    match goal with
    | |- context [get_field field (rev ?l)] => destruct (get_field field (rev l))
    end; try reflexivity;
    (destruct (String.eqb field k) eqn:E;
     [ apply String.eqb_eq in E; subst; apply lookup_insert_eq
     | apply String.eqb_neq in E; now apply lookup_insert_ne ]).
Qed.

Lemma apply_data_idempotent (data : Payload) (u : Doc) :
  apply_data data (apply_data data u) = apply_data data u.
Proof.
  apply map_eq. intros field. rewrite !apply_data_lookup_last.
  now destruct (get_field field _).
Qed.

Lemma no_faults_two (fs : list (option string)) :
  Forall (fun f => f = None) fs ->
  hd None fs = None /\ hd None (tl fs) = None.
Proof.
  intros H. destruct H as [|f fs -> H]; [split; reflexivity |].
  destruct H as [|f' fs' -> H]; split; reflexivity.
Qed.

(** Two runs of a handler that is a single guarded update. *)
Lemma single_update_twice (route_url : string) (B : Type)
    (eh : option (JsError -> M Outcome)) (data : Request B -> Payload) (ok : Payload) :
  eh = Some updateErrorHandler \/ eh = None ->
  forall uid (b : B) invalid w,
    no_faults w ->
    let r :=
      mkRoute route_url B false eh schemas_response
        (fun req =>
           try_catch (prisma_user_update (session_user_id req) (data req) ;;; ret ok)
             report_error) in
    users (dispatch r uid b invalid (dispatch r uid b invalid w).2).2 =
      users (dispatch r uid b invalid w).2 /\
    (dispatch r uid b invalid (dispatch r uid b invalid w).2).1 =
      (dispatch r uid b invalid w).1.
Proof.
  intros Heh uid b invalid w Hf.
  unfold no_faults in Hf. apply no_faults_two in Hf. destruct Hf as [Hf1 Hf2].
  destruct w as [us fs calls log ilog st nw]. simpl in Hf1, Hf2.
  unfold dispatch, run_handler, run_error_handler, serialized.
  destruct Heh as [-> | ->], invalid as [msg|];
    (destruct fs as [|f1 fs]; simpl in Hf1, Hf2; subst;
     [| destruct fs as [|f2 fs]; simpl in Hf2; subst ]);
    cbn -[apply_data]; unfold_orm; cbn -[apply_data];
    try (split; reflexivity);
    destruct (us !! uid) as [u|] eqn:Hu; cbn -[apply_data];
    rewrite ?lookup_insert_eq, ?Hu; cbn -[apply_data];
    rewrite ?insert_insert_eq, ?apply_data_idempotent; split; reflexivity.
Qed.

Section Repeat.

Variable toLowerCase : string -> string.
Variable trim : string -> string.
Variable isProfane : string -> bool.
Variable isValidUsername : string -> Validated.
Variable blocklistedUsernames : list string.
Variable urlProtocol : string -> option string.
Variable formatDateTime : option Z -> Z -> string.

Local Abbreviation routes :=
  (settingRoutes toLowerCase trim isProfane isValidUsername blocklistedUsernames
     urlProtocol formatDateTime).

(** X19: the nine routes that only update are idempotent while the data
    store does not fail: sending the same request a second time leaves the
    user collection as the first left it and gets the same reply. *)
Theorem single_update_routes_are_idempotent (r : Route) :
  In r routes ->
  url r <> "/update-my-email" ->
  url r <> "/update-my-username" ->
  forall uid (b : Body r) invalid w,
    no_faults w ->
    users (dispatch r uid b invalid (dispatch r uid b invalid w).2).2 =
      users (dispatch r uid b invalid w).2 /\
    (dispatch r uid b invalid (dispatch r uid b invalid w).2).1 =
      (dispatch r uid b invalid w).1.
Proof.
  intros Hr Hemail Husername uid b invalid w Hf.
  each_route Hr; try (exfalso; apply Hemail; reflexivity);
    try (exfalso; apply Husername; reflexivity);
    unfold_handlers;
    refine (single_update_twice _ _ _ _ _ _ uid b invalid w Hf); auto.
Qed.

End Repeat.

Section RepeatTwo.

Variable toLowerCase : string -> string.
Variable trim : string -> string.
Variable isProfane : string -> bool.
Variable isValidUsername : string -> Validated.
Variable blocklistedUsernames : list string.

Local Abbreviation put_username :=
  (put_update_my_username toLowerCase trim isProfane isValidUsername
     blocklistedUsernames).

(** The handler only ever consumes scheduled faults. *)
Lemma update_my_username_consumes_faults uid name invalid w :
  exists n, faults (dispatch put_username uid {| schemas.username := name |}
                      invalid w).2 = drop n (faults w).
Proof.
  open_request uid b invalid w; destruct invalid; reduce;
    unfold_orm; reduce; run_cases;
    first [ exists 0%nat; reflexivity | exists 1%nat; reflexivity
          | exists 2%nat; reflexivity | exists 3%nat; reflexivity ].
Qed.

Lemma no_faults_drop (n : nat) (fs : list (option string)) :
  Forall (fun f => f = None) fs -> hd None (drop n fs) = None.
Proof.
  intros H. apply (Forall_drop _ n) in H. destruct H as [|f rest -> _]; reflexivity.
Qed.

(** X20: after a successful rename, sending the same request again is
    refused with 400 'flash.username-used' and writes nothing: the stored
    lowercased, trimmed name now equals the submitted one.  (Trimming the
    trimmed name and lowercasing the lowercased name change nothing, as is
    the case for the engine's methods.) *)
Theorem rename_then_repeat_is_refused uid name invalid w u stored display :
  trim (trim name) = trim name ->
  toLowerCase (toLowerCase (trim name)) = toLowerCase (trim name) ->
  users w !! uid = Some u ->
  u !! "username" = Some (VStr stored) ->
  u !! "usernameDisplay" = VStr <$> display ->
  no_faults w ->
  toLowerCase (trim name) <> toLowerCase stored \/ Some (trim name) <> (trim <$> display) ->
  valid (isValidUsername (toLowerCase (trim name))) = true ->
  isProfane (toLowerCase (trim name)) = false ->
  includes blocklistedUsernames (toLowerCase (trim name)) = false ->
  toLowerCase (trim name) = toLowerCase stored \/
    users_named (toLowerCase (trim name)) (users w) = 0%nat ->
  let once := (dispatch put_username uid {| schemas.username := name |} None w).2 in
  exists twice,
    dispatch put_username uid {| schemas.username := name |} invalid once =
      (Sent 400 [("message", VStr "flash.username-used"); ("type", VStr "info")], twice) /\
    users twice = users once.
Proof.
  intros Htrim Hlower Hu Hs Hd Hf Hchanged Hvalid Hprofane Hblock Hfree once.
  destruct (update_my_username_renamed toLowerCase trim isProfane isValidUsername
              blocklistedUsernames uid name w u stored display Hu Hs Hd Hf Hchanged
              Hvalid Hprofane Hblock Hfree) as (w1 & Hrun & Husers).
  assert (Hfaults : hd None (faults once) = None).
  { destruct (update_my_username_consumes_faults uid name None w) as [n Hn].
    subst once. rewrite Hn. now apply no_faults_drop. }
  assert (Honce : once = w1) by (subst once; now rewrite Hrun).
  destruct (update_my_username_unchanged toLowerCase trim isProfane isValidUsername
              blocklistedUsernames uid name invalid once
              (<["usernameDisplay" := VStr (trim name)]>
                 (<["username" := VStr (toLowerCase (trim name))]> u))
              (toLowerCase (trim name)) (trim name))
    as (w2 & Hrun2 & Husers2 & _).
  - rewrite Honce, Husers. apply lookup_insert_eq.
  - now rewrite lookup_insert_ne, lookup_insert_eq.
  - apply lookup_insert_eq.
  - exact Hfaults.
  - symmetry. exact Hlower.
  - symmetry. exact Htrim.
  - exists w2. split; assumption.
Qed.

End RepeatTwo.

Lemma single_update_routes_are_idempotent_witness :
  users (dispatch put_update_my_theme "u1" {| schemas.theme := "night" |} None
           (dispatch put_update_my_theme "u1" {| schemas.theme := "night" |} None
              Sample.world).2).2 =
    users (dispatch put_update_my_theme "u1" {| schemas.theme := "night" |} None
             Sample.world).2 /\
  (dispatch put_update_my_theme "u1" {| schemas.theme := "night" |} None
     (dispatch put_update_my_theme "u1" {| schemas.theme := "night" |} None
        Sample.world).2).1 =
    (dispatch put_update_my_theme "u1" {| schemas.theme := "night" |} None
       Sample.world).1.
Proof.
  apply (single_update_routes_are_idempotent toLowerCase trim Sample.isProfane
           Sample.isValidUsername Sample.blocklistedUsernames Sample.urlProtocol
           Sample.formatDateTime put_update_my_theme).
  - do 2 right. left. reflexivity.
  - simpl. discriminate.
  - simpl. discriminate.
  - unfold no_faults. simpl. constructor.
Defined.

Lemma rename_then_repeat_is_refused_witness :
  exists twice,
    dispatch Sample.put_username "u1" {| schemas.username := "  NewCamper " |} None
      (dispatch Sample.put_username "u1" {| schemas.username := "  NewCamper " |} None
         Sample.world).2 =
      (Sent 400 [("message", VStr "flash.username-used"); ("type", VStr "info")], twice) /\
    users twice =
      users (dispatch Sample.put_username "u1"
               {| schemas.username := "  NewCamper " |} None Sample.world).2.
Proof.
  apply (rename_then_repeat_is_refused toLowerCase trim Sample.isProfane
           Sample.isValidUsername Sample.blocklistedUsernames "u1" "  NewCamper " None
           Sample.world Sample.camper "camper" (Some "Camper")).
  - apply trim_idempotent.
  - apply toLowerCase_idempotent.
  - vm_compute. reflexivity.
  - vm_compute. reflexivity.
  - vm_compute. reflexivity.
  - unfold no_faults. simpl. constructor.
  - left. vm_compute. discriminate.
  - reflexivity.
  - reflexivity.
  - reflexivity.
  - right. vm_compute. reflexivity.
Defined.

(** ** The intro file structure tests *)

Module IntroFacts.
Import IntroTests.

Lemma check_block_shaped (block : Value) :
  check_block block = true <-> block_shaped block.
Proof.
  unfold check_block, block_shaped. split.
  - destruct block as [| | | | |fields|]; simpl; try discriminate.
    destruct (get_field "title" fields) as [[]|] eqn:Ht; simpl; try discriminate.
    destruct (get_field "intro" fields) as [[]|] eqn:Hi; simpl; try discriminate.
    intros _. eauto 10.
  - intros (fields & title & intro & -> & Ht & Hi). simpl. now rewrite Ht, Hi.
Qed.

Lemma check_superBlock_shaped (superBlock : Value) :
  check_superBlock superBlock = true <-> superBlock_shaped superBlock.
Proof.
  unfold check_superBlock, superBlock_shaped. split.
  - destruct superBlock as [| | | | |fields|]; simpl; try discriminate.
    destruct (get_field "title" fields) as [[]|] eqn:Ht; simpl; try discriminate.
    destruct (get_field "intro" fields) as [[]|] eqn:Hi; simpl; try discriminate.
    destruct (get_field "blocks" fields) as [blocks|] eqn:Hb; simpl; try discriminate.
    intros H. apply andb_true_iff in H. destruct H as [Hobj Hall].
    exists fields, s, items, blocks. repeat split; try assumption.
    intros block Hin. apply check_block_shaped.
    rewrite forallb_forall in Hall. now apply Hall.
  - intros (fields & title & intro & blocks & -> & Ht & Hi & Hb & Hobj & Hall).
    simpl. rewrite Ht, Hi, Hb. simpl. rewrite Hobj. simpl.
    apply forallb_forall. intros block Hin. apply check_block_shaped. now apply Hall.
Qed.

Lemma get_field_In (k : string) (o : Payload) :
  In k (map fst o) -> exists v, get_field k o = Some v.
Proof.
  induction o as [|[k' v'] o IH]; simpl; [contradiction |].
  intros H. destruct (String.eqb k k') eqn:E; [eauto |].
  destruct H as [-> | H]; [| auto].
  rewrite String.eqb_refl in E. discriminate.
Qed.

Lemma forallb_ext_In {A} (f g : A -> bool) (l : list A) :
  (forall x, In x l -> f x = g x) -> forallb f l = forallb g l.
Proof.
  induction l as [|x l IH]; simpl; [reflexivity |].
  intros H. rewrite (H x) by auto. f_equal. apply IH. auto.
Qed.

(** X14: the intro structure checks get through exactly when every
    top-level entry other than 'misc-text' is an object with a string
    [title], an array [intro] and an object (or array) [blocks] whose entries
    each have a string [title] and an array [intro]; the 'misc-text' entry
    is never inspected. *)
Theorem intro_structure_tests_spec (typedIntro : Payload) :
  (intro_structure_tests typedIntro = true <->
   forall key superBlock,
     key <> "misc-text" ->
     get_field key typedIntro = Some superBlock ->
     superBlock_shaped superBlock) /\
  (forall v,
     intro_structure_tests (("misc-text", v) :: typedIntro) =
     intro_structure_tests typedIntro).
Proof.
  split.
  - unfold intro_structure_tests, superblocks. rewrite forallb_forall. split.
    + intros H key sb Hkey Hget.
      apply check_superBlock_shaped.
      specialize (H key). rewrite Hget in H. apply H.
      apply filter_In. split.
      * clear H. induction typedIntro as [|[k' v'] o IH]; simpl in *; [discriminate |].
        destruct (String.eqb key k') eqn:E.
        -- apply String.eqb_eq in E. auto.
        -- right. auto.
      * apply negb_true_iff. now apply String.eqb_neq.
    + intros H key Hin. apply filter_In in Hin. destruct Hin as [Hin Hne].
      apply negb_true_iff, String.eqb_neq in Hne.
      destruct (get_field_In key typedIntro Hin) as [sb Hsb]. rewrite Hsb.
      apply check_superBlock_shaped. eauto.
  - intros v. unfold intro_structure_tests, superblocks. simpl.
    apply forallb_ext_In. intros key Hin. apply filter_In in Hin.
    destruct Hin as [_ Hne]. apply negb_true_iff in Hne. now rewrite Hne.
Qed.

Lemma intro_structure_tests_spec_witness :
  IntroTests.superBlock_shaped
    (VObj [("title", VStr "Responsive Web Design");
           ("intro", VArr [VStr "Learn HTML and CSS."]);
           ("blocks",
            VObj [("basic-html",
                   VObj [("title", VStr "Basic HTML"); ("intro", VArr [])])])]).
Proof.
  apply (proj1 (proj1 (intro_structure_tests_spec Fixtures.intro_json)) eq_refl
           "responsive-web-design").
  - discriminate.
  - reflexivity.
Defined.

End IntroFacts.

(** ** The whole locale suite *)

Module LocaleSuiteFacts.
Import LocaleTests.

Lemma all_pass_describe (fs : gset string) (title : string) (tests : list TestCase) :
  all_pass fs (describe title tests) = all_pass fs tests.
Proof.
  unfold all_pass, describe. induction tests as [|t tests IH]; simpl; [reflexivity |].
  now rewrite IH.
Qed.

Lemma all_pass_app (fs : gset string) (a b : list TestCase) :
  all_pass fs (a ++ b) = all_pass fs a && all_pass fs b.
Proof. apply forallb_app. Qed.

Lemma probed_describe (fs : gset string) (title : string) (tests : list TestCase) :
  probed fs (describe title tests) = probed fs tests.
Proof.
  unfold probed, describe. induction tests as [|t tests IH]; simpl; [reflexivity |].
  now rewrite IH.
Qed.

Section Suite.

Variable dirname : string.
Variable LangNames : list (string * string).
Variable LangCodes : list (string * string).

Local Abbreviation suite := (fun client => locale_tests dirname client LangNames LangCodes).
Local Abbreviation tests_of := (lang_tests dirname LangNames LangCodes).

(** X15: for a list of languages that is not empty, the 'Locale tests:'
    block holds seven tests a language (so it does hold tests), probes the
    five files of each language in the order of [availableLangs.client],
    and all its tests pass exactly when every listed language has its five
    files and a lowercased key in both enums. *)
Theorem locale_suite_passes (client : list string) (fs : gset string) :
  client <> [] ->
  suite client <> [] /\
  length (suite client) = (7 * length client)%nat /\
  probed fs (suite client) =
    flat_map
      (fun lang =>
         map (fun file => (dirname +:+ "/locales") +:+ "/" +:+ lang +:+ "/" +:+ file)
           ["translations.json"; "motivation.json"; "intro.json"; "meta-tags.json";
            "links.json"])
      client /\
  (all_pass fs (suite client) = true <->
   forall lang, In lang client ->
     (forall file,
        In file ["translations.json"; "motivation.json"; "intro.json";
                 "meta-tags.json"; "links.json"] ->
        (dirname +:+ "/locales") +:+ "/" +:+ lang +:+ "/" +:+ file ∈ fs) /\
     has_lowercased_entry LangNames lang /\
     has_lowercased_entry LangCodes lang).
Proof.
  intros Hclient. unfold locale_tests. split; [| clear Hclient; split; [| split]].
  - destruct client as [|lang client]; [contradiction |].
    cbn [flat_map]. unfold lang_tests, describe, test.
    cbn [map app flat_map filesThatShouldExist]. discriminate.
  - unfold describe. rewrite length_map.
    induction client as [|lang client IH]; [reflexivity |].
    cbn [flat_map]. rewrite length_app, IH.
    change (length (tests_of lang)) with 7%nat. simpl. lia.
  - rewrite probed_describe.
    induction client as [|lang client IH]; [reflexivity |].
    cbn [flat_map]. unfold probed in *. rewrite flat_map_app, IH. reflexivity.
  - rewrite all_pass_describe.
    induction client as [|lang client IH].
    + simpl. split; [intros _ lang [] | reflexivity].
    + cbn [flat_map]. rewrite all_pass_app, andb_true_iff, IH.
      rewrite (LocaleFacts.lang_tests_pass dirname LangNames LangCodes lang fs).
      split.
      * intros [Hlang Hrest] l [<- | Hin]; [exact Hlang | now apply Hrest].
      * intros H. split; [apply H; left; reflexivity |].
        intros l Hin. apply H. now right.
Qed.

End Suite.

Lemma locale_suite_passes_witness :
  (forall file,
     In file ["translations.json"; "motivation.json"; "intro.json";
              "meta-tags.json"; "links.json"] ->
     (Sample.dirname +:+ "/locales") +:+ "/" +:+ "english" +:+ "/" +:+ file
       ∈ Sample.locale_files "english") /\
  has_lowercased_entry Sample.lower_LangNames "english" /\
  has_lowercased_entry Sample.lower_LangCodes "english".
Proof.
  apply (proj1 (proj2 (proj2 (proj2 (locale_suite_passes Sample.dirname
                                       Sample.lower_LangNames Sample.lower_LangCodes
                                       ["english"] (Sample.locale_files "english")
                                       ltac:(discriminate)))))).
  - vm_compute. reflexivity.
  - left. reflexivity.
Defined.

End LocaleSuiteFacts.

(** ** The navigation links *)

Module NavFacts.
Import NavLinks.

Lemma signed_in_iff (user : option User) :
  truthy (isUserSignedIn user) = true <->
  exists u n, user = Some u /\ username u = Some n /\ n <> "".
Proof.
  destruct user as [[[n|] d p y]|]; simpl.
  - rewrite negb_true_iff, String.eqb_neq. split; [eauto 6 |].
    now intros (u' & n' & [= <-] & [= <-] & H).
  - split; [discriminate | now intros (u & n & [= <-] & H & _)].
  - split; [discriminate | now intros (u & n & H & _)].
Qed.

(** X17: [NavLinks] throws without a [fetchState]; otherwise it shows
    exactly one of the loading skeleton, the Sign In button and the profile
    avatar: the skeleton while pending, the avatar for a user with a
    non-empty username, Sign In for everyone else. *)
Theorem NavLinks_three_states displayMenu user fetchState :
  match NavLinks displayMenu user fetchState with
  | None => fetchState = None
  | Some nav =>
      exists state, fetchState = Some state /\
      (count_type "SkeletonSprite" nav + count_type "Login" nav +
       count_type "AvatarRenderer" nav = 1)%nat /\
      (count_type "SkeletonSprite" nav = 1%nat <-> pending state = true) /\
      (count_type "AvatarRenderer" nav = 1%nat <->
       pending state = false /\
       exists u n, user = Some u /\ username u = Some n /\ n <> "") /\
      (count_type "Login" nav = 1%nat <->
       pending state = false /\
       ~ exists u n, user = Some u /\ username u = Some n /\ n <> "")
  end.
Proof.
  destruct fetchState as [[p]|]; [| reflexivity]. simpl.
  exists {| pending := p |}. split; [reflexivity |].
  pose proof (signed_in_iff user) as Hs.
  unfold AuthOrProfile. destruct p; simpl.
  - repeat split; try discriminate; try lia; intros [H _]; discriminate.
  - destruct (truthy (isUserSignedIn user)) eqn:E; simpl.
    + assert (Hu : exists u n, user = Some u /\ username u = Some n /\ n <> "")
        by now apply Hs.
      repeat split; try discriminate; try lia; try assumption.
      intros [_ H]. contradiction.
    + assert (Hu : ~ exists u n, user = Some u /\ username u = Some n /\ n <> "")
        by (intros H; apply Hs in H; discriminate).
      repeat split; try discriminate; try lia; try assumption.
      intros [_ H]. contradiction.
Qed.

(** X18: while pending [NavLinks] renders no link; otherwise every link
    goes to [/learn] or to [/<username>] of a signed-in user whose username
    is not empty, so never to the bare [/]. *)
Theorem NavLinks_link_targets displayMenu user state nav :
  NavLinks displayMenu user (Some state) = Some nav ->
  (pending state = true -> link_targets nav = []) /\
  (forall target, In target (link_targets nav) ->
     target = VStr "/learn" \/
     exists u n, user = Some u /\ username u = Some n /\ n <> "" /\
                 target = VStr ("/" +:+ n)).
Proof.
  intros [= <-]. destruct state as [p]. simpl. unfold AuthOrProfile.
  destruct p; simpl.
  - split; [reflexivity | intros target []].
  - split; [discriminate |].
    destruct (truthy (isUserSignedIn user)) eqn:E; simpl.
    + apply signed_in_iff in E. destruct E as (u & n & -> & Hn & Hne).
      intros target [<- | [<- | []]]; [left; reflexivity |].
      right. exists u, n. destruct u as [? ? ? ?]. simpl in Hn. subst. auto.
    + intros target [<- | []]. left. reflexivity.
Qed.

Lemma NavLinks_link_targets_witness :
  (false = true ->
   link_targets
     (element "div" [("className", VStr "main-nav-group")]
        [element "ul" [("className", VStr "nav-list display-flex")]
           [AuthOrProfile (Some Fixtures.signed_in) false]]) = []) /\
  (forall target,
     In target
       (link_targets
          (element "div" [("className", VStr "main-nav-group")]
             [element "ul" [("className", VStr "nav-list display-flex")]
                [AuthOrProfile (Some Fixtures.signed_in) false]])) ->
     target = VStr "/learn" \/
     exists u n, Some Fixtures.signed_in = Some u /\ username u = Some n /\ n <> "" /\
                 target = VStr ("/" +:+ n)).
Proof.
  apply (NavLinks_link_targets true (Some Fixtures.signed_in) {| pending := false |}).
  reflexivity.
Defined.

End NavFacts.
